(** * BW Fill Repeater: a shallow embedding of [module.py]

    The GNU Radio block [BWFillRepeater] keeps a configuration (input
    bandwidth, output bandwidth, sample rate), a derived replication plan
    (number of copies, spacing between the copies) and a running sample
    index.  Its [work] method sums frequency-shifted copies of the input
    block into the output buffer.

    Numbers.  The block is embedded twice.  The first embedding reads
    Python's [float] and numpy's [complex64]/[complex128] as the real and
    complex numbers they approximate: a float is an [R], a complex sample
    a pair of reals, and every arithmetic operation is the exact one.
    Rounding, infinities and NaN are not part of it; it agrees with the
    code, up to rounding, as long as the quotient of the two bandwidths
    stays below 2^51 (where [//] on doubles is the exact floor) and no
    intermediate result overflows, and it says nothing about the value of
    the phase of the mixer far from the start of the stream, where the
    rounding of a double exceeds a turn.  It carries the properties of
    shapes, of the state and of the algebra of the plan.  The second
    embedding (module [F64]) computes on IEEE binary64 values as Python
    and numpy do; it carries what rounding, infinities and NaN decide:
    the number of copies for large quotients, the exceptions of [int],
    and the phase of the mixer.  Python's [int] is [Z] in both.

    Errors.  In the first embedding the two Python exceptions the code can
    meet on real numbers are kept: the [ZeroDivisionError] of [//] and [/]
    on floats, and the [ValueError] numpy raises when two shapes do not
    broadcast.  On doubles [int] can also raise [OverflowError] and
    [ValueError]. *)

From Stdlib Require Import Floats Uint63 Reals ZArith List Lra Lia.
Import ListNotations.

Open Scope R_scope.

(* ================================================================= *)
(** ** Exceptions as results *)

Inductive PyError : Set :=
| ZeroDivisionError
| ValueError.

Inductive result (A : Type) : Type :=
| Ok (a : A)
| Raise (e : PyError).

Arguments Ok {A} a.
Arguments Raise {A} e.

Definition bind {A B : Type} (m : result A) (k : A -> result B) : result B :=
  match m with
  | Ok a => k a
  | Raise e => Raise e
  end.

Notation "x <- m ;; k" := (bind m (fun x => k))
  (at level 61, m at next level, right associativity).

Definition rmap {A B : Type} (f : A -> B) (m : result A) : result B :=
  x <- m ;; Ok (f x).

(** A [for] loop over a Python sequence whose body may raise. *)
Fixpoint for_each {A S : Type} (xs : list A) (body : A -> S -> result S)
  (s : S) : result S :=
  match xs with
  | [] => Ok s
  | x :: xs' => s' <- body x s ;; for_each xs' body s'
  end.

(* ================================================================= *)
(** ** Complex samples *)

Module Cplx.

Definition C : Type := (R * R)%type.

Definition RtoC (x : R) : C := (x, 0).
Definition C0 : C := (0, 0).
(** The Python literal [2j]. *)
Definition C2j : C := (0, 2).

Definition Cadd (z w : C) : C := (fst z + fst w, snd z + snd w).
Definition Cmul (z w : C) : C :=
  (fst z * fst w - snd z * snd w, fst z * snd w + snd z * fst w).
Definition Cexp (z : C) : C :=
  (exp (fst z) * cos (snd z), exp (fst z) * sin (snd z)).

(** The mathematical sum of a finite family of samples. *)
Definition Csum (zs : list C) : C := fold_right Cadd C0 zs.

End Cplx.
Import Cplx.

(* ================================================================= *)
(** ** The Python built-ins the block uses *)

Module Py.

(** [x // y] on floats, read on real numbers: the floor of the exact
    quotient, as a float ([F64.floordiv] is the operation on doubles,
    which agrees with it for quotients below 2^51). *)
Definition floordiv (x y : R) : result R :=
  if Req_dec_T y 0 then Raise ZeroDivisionError
  else Ok (IZR (Zfloor (x / y))).

(** [x / y] on floats. *)
Definition truediv (x y : R) : result R :=
  if Req_dec_T y 0 then Raise ZeroDivisionError
  else Ok (x / y).

(** [int(x)] on a float truncates towards zero (on real numbers it
    cannot raise; [F64.int] is the operation on doubles). *)
Definition int (x : R) : Z :=
  if Rle_dec 0 x then Zfloor x else Zceil x.

(** [range(n)]: 0, 1, ..., n-1, empty when [n <= 0]. *)
Definition range (n : Z) : list Z :=
  map Z.of_nat (seq 0 (Z.to_nat n)).

End Py.

(* ================================================================= *)
(** ** The numpy operations the block uses, on one-dimensional arrays *)

Module Np.

(** [np.zeros(n, dtype=np.complex64)] *)
Definition zeros (n : nat) : list C := repeat C0 n.

(** [np.arange(start, stop)] on integers. *)
Definition arange (start stop : Z) : list Z :=
  map (fun k => (start + Z.of_nat k)%Z) (seq 0 (Z.to_nat (stop - start))).

(** [a / d] for an integer array and a float, read on real numbers
    ([F64.time_vector] divides doubles). *)
Definition div_scalar (a : list Z) (d : R) : list R :=
  map (fun i => IZR i / d) a.

(** [z * t] for a complex scalar and a float array. *)
Definition scalar_mul (z : C) (t : list R) : list C :=
  map (fun tk => Cmul z (RtoC tk)) t.

(** [np.exp] on a complex array. *)
Definition exp (a : list C) : list C := map Cexp a.

(** [a.astype(np.complex64)]: the value is kept, only its precision
    changes, which this model does not track. *)
Definition astype_complex64 (a : list C) : list C := a.

(** Broadcasting a one-dimensional array to length [n]: the array is
    taken as it is when its length is [n], a single element is repeated,
    and any other shape is refused. *)
Definition broadcast_to (a : list C) (n : nat) : result (list C) :=
  if Nat.eqb (length a) n then Ok a
  else match a with
       | [v] => Ok (repeat v n)
       | _ => Raise ValueError
       end.

Fixpoint zip_with (f : C -> C -> C) (a b : list C) : list C :=
  match a, b with
  | x :: a', y :: b' => f x y :: zip_with f a' b'
  | _, _ => []
  end.

(** [out[:] = v]: every cell of [out] is overwritten. *)
Definition assign_all (out v : list C) : result (list C) :=
  broadcast_to v (length out).

(** [a * b], elementwise, with broadcasting on either side. *)
Definition mul (a b : list C) : result (list C) :=
  if Nat.eqb (length a) (length b) then Ok (zip_with Cmul a b)
  else match a, b with
       | [x], _ => Ok (map (Cmul x) b)
       | _, [y] => Ok (map (fun x => Cmul x y) a)
       | _, _ => Raise ValueError
       end.

(** [out += v]: in place, so only [v] may be broadcast. *)
Definition iadd (out v : list C) : result (list C) :=
  v' <- broadcast_to v (length out) ;;
  Ok (zip_with Cadd out v').

End Np.

(* ================================================================= *)
(** ** The block *)

Record BWFillRepeater : Type := mkBWFillRepeater {
  input_bw : R;
  output_bw : R;
  samp_rate : R;
  num_copies : Z;
  shift_spacing : R;
  sample_idx : Z
}.

(** The line [set_input_bandwidth] prints, as the three values it formats. *)
Record LogLine : Type := mkLogLine {
  log_input_bw : R;
  log_num_copies : Z;
  log_shift_spacing : R
}.

(** [BWFillRepeater.__init__] *)
Definition __init__ (input_bw output_bw samp_rate : R) : result BWFillRepeater :=
  q <- Py.floordiv output_bw input_bw ;;
  let num_copies := Z.max 1 (Py.int q) in
  shift_spacing <- Py.truediv output_bw (IZR num_copies) ;;
  Ok (mkBWFillRepeater input_bw output_bw samp_rate num_copies shift_spacing 0).

(** [BWFillRepeater.set_input_bandwidth]: the new state and what was
    printed. *)
Definition set_input_bandwidth (self : BWFillRepeater) (input_bw : R)
  : result (BWFillRepeater * list LogLine) :=
  if Rlt_dec 0 input_bw then
    q <- Py.floordiv (output_bw self) input_bw ;;
    let num_copies := Z.max 1 (Py.int q) in
    shift_spacing <- Py.truediv (output_bw self) (IZR num_copies) ;;
    Ok (mkBWFillRepeater input_bw (output_bw self) (samp_rate self)
          num_copies shift_spacing (sample_idx self),
        [mkLogLine input_bw num_copies shift_spacing])
  else Ok (self, []).

(** The time vector of [work]:
    [np.arange(self.sample_idx, self.sample_idx + num_samples) / self.samp_rate] *)
Definition time_vector (self : BWFillRepeater) (num_samples : nat) : list R :=
  Np.div_scalar
    (Np.arange (sample_idx self) (sample_idx self + Z.of_nat num_samples))
    (samp_rate self).

(** [freq_shift = -self.output_bw / 1 + i * self.shift_spacing] *)
Definition freq_shift (self : BWFillRepeater) (i : Z) : R :=
  - output_bw self / 1 + IZR i * shift_spacing self.

(** [mixer = np.exp(2j * np.pi * freq_shift * t).astype(np.complex64)] *)
Definition mixer (self : BWFillRepeater) (t : list R) (i : Z) : list C :=
  Np.astype_complex64
    (Np.exp
       (Np.scalar_mul (Cmul (Cmul C2j (RtoC PI)) (RtoC (freq_shift self i))) t)).

(** The body of the [for] loop of [work], for copy [i]:
    [out += in0 * mixer] *)
Definition add_copy (self : BWFillRepeater) (in0 : list C) (t : list R)
  (i : Z) (out : list C) : result (list C) :=
  prod <- Np.mul in0 (mixer self t i) ;;
  Np.iadd out prod.

(** [BWFillRepeater.work], on the input buffer [in0 = input_items[0]] and
    the output buffer [out = output_items[0]]: the new state, the output
    buffer after the call and the returned count. *)
Definition work (self : BWFillRepeater) (in0 out : list C)
  : result (BWFillRepeater * list C * Z) :=
  let num_samples := length in0 in
  out <- Np.assign_all out (Np.zeros num_samples) ;;
  let t := time_vector self num_samples in
  out <- for_each (Py.range (num_copies self)) (add_copy self in0 t) out ;;
  let self' :=
    mkBWFillRepeater (input_bw self) (output_bw self) (samp_rate self)
      (num_copies self) (shift_spacing self)
      (sample_idx self + Z.of_nat num_samples) in
  Ok (self', out, Z.of_nat (length out)).



(** What the block's user can do after construction. *)
Inductive Call : Type :=
| CallSetInputBandwidth (input_bw : R)
| CallWork (in0 out : list C).

Definition call (c : Call) (self : BWFillRepeater) : result BWFillRepeater :=
  match c with
  | CallSetInputBandwidth b => rmap fst (set_input_bandwidth self b)
  | CallWork in0 out => rmap (fun r => fst (fst r)) (work self in0 out)
  end.

Definition calls (cs : list Call) (self : BWFillRepeater) : result BWFillRepeater :=
  for_each cs call self.

(** The state [work] leaves behind: only the sample index moves. *)
Definition advance (self : BWFillRepeater) (n : nat) : BWFillRepeater :=
  mkBWFillRepeater (input_bw self) (output_bw self) (samp_rate self)
    (num_copies self) (shift_spacing self) (sample_idx self + Z.of_nat n).

(** One pass of the loop of [work] when the shapes agree. *)
Definition add_copy_same (self : BWFillRepeater) (in0 : list C) (t : list R)
  (out : list C) (i : Z) : list C :=
  Np.zip_with Cadd out (Np.zip_with Cmul in0 (mixer self t i)).

(** The output buffer [work] leaves behind when the shapes agree: one
    elementwise accumulation per copy, starting from zeros. *)
Definition accumulate (self : BWFillRepeater) (in0 : list C) : list C :=
  fold_left (add_copy_same self in0 (time_vector self (length in0)))
    (Py.range (num_copies self))
    (Np.zeros (length in0)).

(** The carrier [exp(j * 2 pi * f * (c + k) / sr)] of the specification. *)
Definition carrier (f : R) (c : Z) (k : nat) (sr : R) : C :=
  Cexp (0, 2 * PI * f * IZR (c + Z.of_nat k) / sr).


(** A call the host can make: [work] gets buffers of equal length. *)
Definition host_call (c : Call) : Prop :=
  match c with
  | CallSetInputBandwidth _ => True
  | CallWork in0 out => length out = length in0
  end.

(** The replication plan as the two assignments derive it. *)
Definition plan_derived (self : BWFillRepeater) : Prop :=
  (1 <= num_copies self)%Z /\
  shift_spacing self = output_bw self / IZR (num_copies self).

(** Scaling every sample of a block by the constant [a]. *)
Definition scale (a : C) (x : list C) : list C := map (Cmul a) x.

(** The block built with the default arguments of [__init__]:
    [input_bw=12e3, output_bw=20e6, samp_rate=1.0]. *)
Definition default_block : BWFillRepeater :=
  mkBWFillRepeater 12000 20000000 1 1666 (20000000 / 1666) 0.

(** A block with a single copy: [input_bw = output_bw = samp_rate = 1]. *)
Definition unit_block : BWFillRepeater :=
  mkBWFillRepeater 1 1 1 1 1 0.

(** Two samples, [1] and [2j], and a buffer to receive them. *)
Definition two_samples : list C := [RtoC 1; C2j].
Definition two_cells : list C := [C0; C0].

(** The input samples the [work] calls of a sequence of calls consume. *)
Definition samples_consumed (cs : list Call) : nat :=
  list_sum
    (map (fun c => match c with
                   | CallSetInputBandwidth _ => 0%nat
                   | CallWork in0 _ => length in0
                   end) cs).

(** The plan stored in the block is the one its configuration gives. *)
Definition plan_fresh (self : BWFillRepeater) : Prop :=
  input_bw self <> 0 /\
  num_copies self = Z.max 1 (Zfloor (output_bw self / input_bw self)) /\
  shift_spacing self = output_bw self / IZR (num_copies self).


(* ================================================================= *)
(** ** The block on IEEE doubles

    The definitions above read every float as the real number it
    approximates.  That reading is accurate to rounding as long as the
    numbers stay moderate, and it has no infinity and no NaN.  This
    module models the same three methods on binary64 values, with the
    arithmetic Python and numpy really perform: the configuration, the
    plan, the time vector and the phase of the mixer are doubles.  Only
    two things stay idealised: the value of [np.exp] at a finite argument
    is the exact exponential of that double, and the [complex64] samples
    are added and multiplied as complex numbers, a sample that is not a
    number being [None]. *)

Module F64.

Inductive Exception : Set :=
| ZeroDivisionError
| OverflowError
| ValueError.

Inductive outcome (A : Type) : Type :=
| Return (a : A)
| Raise (e : Exception).

Arguments Return {A} a.
Arguments Raise {A} e.

Definition bind {A B : Type} (m : outcome A) (k : A -> outcome B) : outcome B :=
  match m with
  | Return a => k a
  | Raise e => Raise e
  end.

Notation "x <~ m ;; k" := (bind m (fun x => k))
  (at level 61, m at next level, right associativity).

Fixpoint for_each {A S : Type} (xs : list A) (body : A -> S -> outcome S)
  (s : S) : outcome S :=
  match xs with
  | [] => Return s
  | x :: xs' => s' <~ body x s ;; for_each xs' body s'
  end.

(** *** Doubles *)

(** [np.pi], the double nearest to pi. *)
Definition pi : float := 0x1.921fb54442d18p+1%float.

(** The real number a finite double stands for (0 for the others). *)
Definition F2R (x : float) : R :=
  match Prim2SF x with
  | S754_finite s m e =>
      let a := if (0 <=? e)%Z then IZR (Zpos m * 2 ^ e)
               else IZR (Zpos m) / IZR (2 ^ (- e)) in
      if s then - a else a
  | _ => 0
  end.

(** An integer as a double, rounded to nearest, ties to even. *)
Definition float_of_Z (z : Z) : float :=
  SF2Prim (binary_normalize prec emax z 0 false).

Definition copysign (x y : float) : float :=
  if get_sign y then (- abs x)%float else abs x.

(** C's [fmod]: the remainder of [x / y] with the sign of [x], exact. *)
Definition fmod (x y : float) : float :=
  match Prim2SF x, Prim2SF y with
  | S754_nan, _ | _, S754_nan => nan
  | S754_infinity _, _ => nan
  | _, S754_zero _ => nan
  | S754_zero _, _ => x
  | S754_finite _ _ _, S754_infinity _ => x
  | S754_finite sx mx ex, S754_finite _ my ey =>
      let e := Z.min ex ey in
      let X := (Zpos mx * 2 ^ (ex - e))%Z in
      let Y := (Zpos my * 2 ^ (ey - e))%Z in
      let mag := Z.ldexp (of_uint63 (Uint63.of_Z (X mod Y))) e in
      if sx then (- mag)%float else mag
  end.

(** C's [floor]. *)
Definition floor (d : float) : float :=
  match Prim2SF d with
  | S754_finite s m e =>
      if (0 <=? e)%Z then d
      else
        let q := ((if s then Zneg m else Zpos m) / 2 ^ (- e))%Z in
        if (q <? 0)%Z then (- of_uint63 (Uint63.of_Z (- q)))%float
        else of_uint63 (Uint63.of_Z q)
  | _ => d
  end.

(** C's truth value of a double: anything but a zero. *)
Definition nonzero (x : float) : bool := negb (x =? 0)%float.

(** CPython's [_float_div_mod]: the floored quotient and the remainder. *)
Definition float_div_mod (vx wx : float) : float * float :=
  let mod_ := fmod vx wx in
  let div := ((vx - mod_) / wx)%float in
  let '(mod_, div) :=
    if nonzero mod_ then
      if negb (Bool.eqb (wx <? 0)%float (mod_ <? 0)%float)
      then ((mod_ + wx)%float, (div - 1)%float)
      else (mod_, div)
    else (copysign 0 wx, div) in
  let floordiv :=
    if nonzero div then
      let fd := floor div in
      if (0.5 <? div - fd)%float then (fd + 1)%float else fd
    else copysign 0 (vx / wx)%float in
  (floordiv, mod_).

(** [vx // wx] on floats. *)
Definition floordiv (vx wx : float) : outcome float :=
  if (wx =? 0)%float then Raise ZeroDivisionError
  else Return (fst (float_div_mod vx wx)).

(** [int(d)] on a float: truncation, refused for infinities and NaN. *)
Definition int (d : float) : outcome Z :=
  match Prim2SF d with
  | S754_nan => Raise ValueError
  | S754_infinity _ => Raise OverflowError
  | S754_zero _ => Return 0%Z
  | S754_finite s m e =>
      let a := if (0 <=? e)%Z then (Zpos m * 2 ^ e)%Z
               else (Zpos m / 2 ^ (- e))%Z in
      Return (if s then (- a)%Z else a)
  end.

(** [a / n] for a float and an int: the int is converted first; it is
    zero as a double exactly when it is zero, and too large to convert
    exactly when it rounds to infinity. *)
Definition truediv_int (a : float) (n : Z) : outcome float :=
  if (n =? 0)%Z then Raise ZeroDivisionError
  else
    let b := float_of_Z n in
    if is_infinity b then Raise OverflowError
    else Return (a / b)%float.

(** *** The block *)

Record BWFillRepeater : Type := mkBWFillRepeater {
  input_bw : float;
  output_bw : float;
  samp_rate : float;
  num_copies : Z;
  shift_spacing : float;
  sample_idx : Z
}.

Record LogLine : Type := mkLogLine {
  log_input_bw : float;
  log_num_copies : Z;
  log_shift_spacing : float
}.

(** The three attribute assignments of lines 35 to 37. *)
Definition set_input_bw (self : BWFillRepeater) (v : float) : BWFillRepeater :=
  mkBWFillRepeater v (output_bw self) (samp_rate self) (num_copies self)
    (shift_spacing self) (sample_idx self).

Definition set_num_copies (self : BWFillRepeater) (v : Z) : BWFillRepeater :=
  mkBWFillRepeater (input_bw self) (output_bw self) (samp_rate self) v
    (shift_spacing self) (sample_idx self).

Definition set_shift_spacing (self : BWFillRepeater) (v : float) : BWFillRepeater :=
  mkBWFillRepeater (input_bw self) (output_bw self) (samp_rate self)
    (num_copies self) v (sample_idx self).

(** [BWFillRepeater.__init__]: an exception leaves no object. *)
Definition __init__ (input_bw output_bw samp_rate : float)
  : outcome BWFillRepeater :=
  q <~ floordiv output_bw input_bw ;;
  n <~ int q ;;
  let num_copies := Z.max 1 n in
  shift_spacing <~ truediv_int output_bw num_copies ;;
  Return (mkBWFillRepeater input_bw output_bw samp_rate num_copies
            shift_spacing 0).

(** [BWFillRepeater.set_input_bandwidth]: the object as the call leaves
    it, and either what was printed or the exception.  The assignment of
    line 35 is done before line 36 can raise. *)
Definition set_input_bandwidth (self : BWFillRepeater) (input_bw : float)
  : BWFillRepeater * outcome (list LogLine) :=
  if (0 <? input_bw)%float then
    let self := set_input_bw self input_bw in
    match (q <~ floordiv (output_bw self) (F64.input_bw self) ;; int q) with
    | Raise e => (self, Raise e)
    | Return n =>
        let self := set_num_copies self (Z.max 1 n) in
        match truediv_int (output_bw self) (num_copies self) with
        | Raise e => (self, Raise e)
        | Return sp =>
            let self := set_shift_spacing self sp in
            (self,
             Return [mkLogLine (F64.input_bw self) (num_copies self)
                       (shift_spacing self)])
        end
    end
  else (self, Return []).

(** *** The signal path *)

(** A [complex64] sample: a complex number, or [None] when a part of it
    is not a number. *)
Definition sample : Type := option C.

Definition sadd (a b : sample) : sample :=
  match a, b with
  | Some z, Some w => Some (Cadd z w)
  | _, _ => None
  end.

(** An input sample times a mixer sample. *)
Definition smul (x : C) (m : sample) : sample := option_map (Cmul x) m.

(** [complex128] values and their product, on doubles. *)
Definition c128 : Type := (float * float)%type.

Definition c128_of_float (x : float) : c128 := (x, 0%float).

Definition c128_mul (a b : c128) : c128 :=
  ((fst a * fst b - snd a * snd b)%float,
   (fst a * snd b + snd a * fst b)%float).

(** [np.exp] at a [complex128]: the exponential of the number the two
    doubles stand for; not a number when a part is infinite or NaN (the
    real part of the argument is a zero or NaN wherever [work] calls
    it). *)
Definition c128_finite (z : c128) : bool :=
  (is_finite (fst z) && is_finite (snd z))%bool.

Definition c128_exp (z : c128) : sample :=
  if c128_finite z then Some (Cexp (F2R (fst z), F2R (snd z))) else None.

(** [np.arange(self.sample_idx, self.sample_idx + num_samples) / self.samp_rate]:
    each index becomes a double, then is divided. *)
Definition time_vector (self : BWFillRepeater) (num_samples : nat)
  : list float :=
  map (fun i => (float_of_Z i / samp_rate self)%float)
    (Np.arange (sample_idx self) (sample_idx self + Z.of_nat num_samples)).

(** [freq_shift = -self.output_bw / 1 + i * self.shift_spacing] *)
Definition freq_shift (self : BWFillRepeater) (i : Z) : float :=
  ((- output_bw self) / 1 + float_of_Z i * shift_spacing self)%float.

(** The argument of [np.exp] at time [tk] for copy [i]:
    [2j * np.pi * freq_shift * t], multiplied from the left. *)
Definition phase (self : BWFillRepeater) (i : Z) (tk : float) : c128 :=
  c128_mul
    (c128_mul (c128_mul (0%float, 2%float) (c128_of_float pi))
       (c128_of_float (freq_shift self i)))
    (c128_of_float tk).

(** [mixer = np.exp(2j * np.pi * freq_shift * t).astype(np.complex64)] *)
Definition mixer (self : BWFillRepeater) (t : list float) (i : Z)
  : list sample :=
  map (fun tk => c128_exp (phase self i tk)) t.

(** numpy's broadcasting on one-dimensional arrays. *)
Definition broadcast_to {A : Type} (a : list A) (n : nat) : outcome (list A) :=
  if Nat.eqb (length a) n then Return a
  else match a with
       | [v] => Return (repeat v n)
       | _ => Raise ValueError
       end.

Fixpoint zip_with {A B D : Type} (f : A -> B -> D) (a : list A) (b : list B)
  : list D :=
  match a, b with
  | x :: a', y :: b' => f x y :: zip_with f a' b'
  | _, _ => []
  end.

(** [out[:] = v] *)
Definition assign_all (out v : list sample) : outcome (list sample) :=
  broadcast_to v (length out).

(** [in0 * mixer] *)
Definition mul (a : list C) (b : list sample) : outcome (list sample) :=
  if Nat.eqb (length a) (length b) then Return (zip_with smul a b)
  else match a, b with
       | [x], _ => Return (map (smul x) b)
       | _, [y] => Return (map (fun x => smul x y) a)
       | _, _ => Raise ValueError
       end.

(** [out += v] *)
Definition iadd (out v : list sample) : outcome (list sample) :=
  v' <~ broadcast_to v (length out) ;;
  Return (zip_with sadd out v').

(** The body of the loop of [work] for copy [i]. *)
Definition add_copy (self : BWFillRepeater) (in0 : list C) (t : list float)
  (i : Z) (out : list sample) : outcome (list sample) :=
  prod <~ mul in0 (mixer self t i) ;;
  iadd out prod.

(** The state [work] leaves behind. *)
Definition advance (self : BWFillRepeater) (n : nat) : BWFillRepeater :=
  mkBWFillRepeater (input_bw self) (output_bw self) (samp_rate self)
    (num_copies self) (shift_spacing self) (sample_idx self + Z.of_nat n).

(** [BWFillRepeater.work]: the input block holds numbers; the state is
    only written by the last assignment, so an exception leaves it as it
    was. *)
Definition work (self : BWFillRepeater) (in0 : list C) (out : list sample)
  : outcome (BWFillRepeater * list sample * Z) :=
  let num_samples := length in0 in
  out <~ assign_all out (repeat (Some C0) num_samples) ;;
  let t := time_vector self num_samples in
  out <~ for_each (Py.range (num_copies self)) (add_copy self in0 t) out ;;
  Return (advance self num_samples, out, Z.of_nat (length out)).

(** The phase of copy [i] at sample [k] of a block. *)
Definition phase_at (self : BWFillRepeater) (i : Z) (k : nat) : c128 :=
  phase self i
    (float_of_Z (sample_idx self + Z.of_nat k) / samp_rate self)%float.


(** Sample [k] of the output, copy by copy, for the input sample [x]. *)
Definition mix_sample (self : BWFillRepeater) (k : nat) (x : C) : sample :=
  fold_left (fun acc i => sadd acc (smul x (c128_exp (phase_at self i k))))
    (Py.range (num_copies self)) (Some C0).

(** One pass of the loop of [work] when the shapes agree, and the
    buffer all the passes leave. *)
Definition add_copy_same (self : BWFillRepeater) (in0 : list C)
  (t : list float) (out : list sample) (i : Z) : list sample :=
  zip_with sadd out (zip_with smul in0 (mixer self t i)).

Definition accumulate (self : BWFillRepeater) (in0 : list C) : list sample :=
  fold_left (add_copy_same self in0 (time_vector self (length in0)))
    (Py.range (num_copies self))
    (repeat (Some C0) (length in0)).

(** What a user of the block can do, and the state each call leaves,
    whether it returns or raises. *)
Inductive Call : Type :=
| CallSetInputBandwidth (input_bw : float)
| CallWork (in0 : list C) (out : list sample).

Definition call (c : Call) (self : BWFillRepeater) : BWFillRepeater :=
  match c with
  | CallSetInputBandwidth b => fst (set_input_bandwidth self b)
  | CallWork in0 out =>
      match work self in0 out with
      | Return (self', _, _) => self'
      | Raise _ => self
      end
  end.

Definition calls (cs : list Call) (self : BWFillRepeater) : BWFillRepeater :=
  fold_left (fun s c => call c s) cs self.


(** The blocks [__init__()] and [__init__(1.0, 1.0, 1.0)] build. *)
Definition default_block : BWFillRepeater :=
  mkBWFillRepeater 12e3 20e6 1 1666 0x1.77266a556f8eep+13 0.

Definition unit_block : BWFillRepeater := mkBWFillRepeater 1 1 1 1 1 0.

End F64.

(* ================================================================= *)
(** ** Arithmetic of samples *)

Lemma Cadd_comm z w : Cadd z w = Cadd w z.
Proof. unfold Cadd; f_equal; ring. Qed.

Lemma Cadd_assoc x y z : Cadd x (Cadd y z) = Cadd (Cadd x y) z.
Proof. unfold Cadd; cbn; f_equal; ring. Qed.

Lemma Cadd_0_l z : Cadd C0 z = z.
Proof. destruct z; unfold Cadd, C0; cbn; f_equal; ring. Qed.

Lemma Cadd_0_r z : Cadd z C0 = z.
Proof. rewrite Cadd_comm; apply Cadd_0_l. Qed.

Lemma Cmul_assoc x y z : Cmul x (Cmul y z) = Cmul (Cmul x y) z.
Proof. unfold Cmul; cbn; f_equal; ring. Qed.

Lemma Cmul_0_r z : Cmul z C0 = C0.
Proof. unfold Cmul, C0; cbn; f_equal; ring. Qed.

Lemma Cmul_add_distr_l a z w : Cmul a (Cadd z w) = Cadd (Cmul a z) (Cmul a w).
Proof. unfold Cmul, Cadd; cbn; f_equal; ring. Qed.


(** The argument of [np.exp] in [mixer], multiplied out. *)
Lemma mixer_phase f tk :
  Cmul (Cmul (Cmul C2j (RtoC PI)) (RtoC f)) (RtoC tk) = (0, 2 * PI * f * tk).
Proof. unfold Cmul, C2j, RtoC; cbn [fst snd]; f_equal; ring. Qed.

Lemma Csum_fold_left (g : Z -> C) (l : list Z) (a : C) :
  fold_left (fun acc i => Cadd acc (g i)) l a = Cadd a (Csum (map g l)).
Proof.
  revert a; induction l as [|i l IH]; intros a; cbn.
  - now rewrite Cadd_0_r.
  - rewrite IH. now rewrite Cadd_assoc.
Qed.

(* ================================================================= *)
(** ** Python built-ins *)

Lemma int_IZR z : Py.int (IZR z) = z.
Proof.
  unfold Py.int. destruct (Rle_dec 0 (IZR z)).
  - apply ZfloorZ.
  - apply Zceil_eq. lra.
Qed.

Lemma floordiv_ok x y : y <> 0 -> Py.floordiv x y = Ok (IZR (Zfloor (x / y))).
Proof. intros H. unfold Py.floordiv. now destruct (Req_dec_T y 0). Qed.

Lemma truediv_ok x y : y <> 0 -> Py.truediv x y = Ok (x / y).
Proof. intros H. unfold Py.truediv. now destruct (Req_dec_T y 0). Qed.

Lemma IZR_max_1_neq_0 z : IZR (Z.max 1 z) <> 0.
Proof.
  assert (H : (1 <= Z.max 1 z)%Z) by lia.
  apply IZR_le in H. lra.
Qed.

Lemma length_range n : length (Py.range n) = Z.to_nat n.
Proof. unfold Py.range. now rewrite length_map, length_seq. Qed.

(* ================================================================= *)
(** ** numpy arrays *)

Lemma length_zeros n : length (Np.zeros n) = n.
Proof. apply repeat_length. Qed.

Lemma length_arange_from c n :
  length (Np.arange c (c + Z.of_nat n)) = n.
Proof.
  unfold Np.arange. rewrite length_map, length_seq.
  replace (c + Z.of_nat n - c)%Z with (Z.of_nat n) by lia.
  apply Nat2Z.id.
Qed.

Lemma length_zip_with f a b :
  length a = length b -> length (Np.zip_with f a b) = length a.
Proof.
  revert b; induction a as [|x a IH]; intros [|y b] H; cbn in *; try congruence.
  f_equal. apply IH. congruence.
Qed.

Lemma nth_error_zip_with f a b k x y :
  nth_error a k = Some x -> nth_error b k = Some y ->
  nth_error (Np.zip_with f a b) k = Some (f x y).
Proof.
  revert b k; induction a as [|x0 a IH]; intros [|y0 b] [|k]; cbn;
    try discriminate.
  - now intros [= ->] [= ->].
  - apply IH.
Qed.

Lemma broadcast_same a n : length a = n -> Np.broadcast_to a n = Ok a.
Proof. intros H. unfold Np.broadcast_to. now rewrite (proj2 (Nat.eqb_eq _ _) H). Qed.

Lemma mul_same a b : length a = length b -> Np.mul a b = Ok (Np.zip_with Cmul a b).
Proof. intros H. unfold Np.mul. now rewrite (proj2 (Nat.eqb_eq _ _) H). Qed.

Lemma iadd_same out v :
  length v = length out -> Np.iadd out v = Ok (Np.zip_with Cadd out v).
Proof. intros H. unfold Np.iadd. now rewrite (broadcast_same _ _ H). Qed.

(* ================================================================= *)
(** ** One call of [work] *)

Lemma length_time_vector self n : length (time_vector self n) = n.
Proof.
  unfold time_vector, Np.div_scalar.
  rewrite length_map. apply length_arange_from.
Qed.

Lemma length_mixer self t i : length (mixer self t i) = length t.
Proof.
  unfold mixer, Np.astype_complex64, Np.exp, Np.scalar_mul.
  now rewrite !length_map.
Qed.

Lemma nth_error_time_vector self n k :
  (k < n)%nat ->
  nth_error (time_vector self n) k
  = Some (IZR (sample_idx self + Z.of_nat k) / samp_rate self).
Proof.
  intros Hk. unfold time_vector, Np.div_scalar, Np.arange.
  rewrite !nth_error_map.
  replace (sample_idx self + Z.of_nat n - sample_idx self)%Z
    with (Z.of_nat n) by lia.
  rewrite Nat2Z.id, nth_error_seq.
  apply Nat.ltb_lt in Hk. rewrite Hk. reflexivity.
Qed.

Lemma nth_error_mixer self t i k tk :
  nth_error t k = Some tk ->
  nth_error (mixer self t i) k
  = Some (Cexp (0, 2 * PI * freq_shift self i * tk)).
Proof.
  intros H. unfold mixer, Np.astype_complex64, Np.exp, Np.scalar_mul.
  rewrite !nth_error_map, H. cbn. now rewrite mixer_phase.
Qed.

Section Loop.

Variable self : BWFillRepeater.
Variable in0 : list C.
Variable t : list R.
Hypothesis Ht : length t = length in0.

Lemma length_add_copy_same out i :
  length out = length in0 -> length (add_copy_same self in0 t out i) = length in0.
Proof.
  intros H. unfold add_copy_same.
  rewrite length_zip_with; [exact H|].
  rewrite length_zip_with; [now symmetry|].
  now rewrite length_mixer.
Qed.

Lemma length_loop l out :
  length out = length in0 ->
  length (fold_left (add_copy_same self in0 t) l out) = length in0.
Proof.
  revert out; induction l as [|i l IH]; intros out H; cbn; [exact H|].
  apply IH. now apply length_add_copy_same.
Qed.

Lemma loop_same l out :
  length out = length in0 ->
  for_each l (add_copy self in0 t) out
  = Ok (fold_left (add_copy_same self in0 t) l out).
Proof.
  revert out; induction l as [|i l IH]; intros out H; cbn; [reflexivity|].
  unfold add_copy at 1.
  rewrite mul_same by now rewrite length_mixer.
  cbn [bind].
  rewrite iadd_same.
  - cbn [bind]. apply IH. now apply length_add_copy_same.
  - rewrite length_zip_with; [now symmetry|]. now rewrite length_mixer.
Qed.

(** Sample [k] of the buffer after the loop: the loop over the copies
    has moved inside. *)
Lemma nth_error_loop l out k a x tk :
  nth_error out k = Some a ->
  nth_error in0 k = Some x ->
  nth_error t k = Some tk ->
  nth_error (fold_left (add_copy_same self in0 t) l out) k
  = Some (fold_left
            (fun acc i => Cadd acc (Cmul x (Cexp (0, 2 * PI * freq_shift self i * tk))))
            l a).
Proof.
  revert out a; induction l as [|i l IH]; intros out a Ha Hx Htk; cbn;
    [exact Ha|].
  apply IH; trivial.
  unfold add_copy_same. apply nth_error_zip_with; [exact Ha|].
  apply nth_error_zip_with; [exact Hx|].
  now apply nth_error_mixer.
Qed.

End Loop.

Lemma length_accumulate self in0 : length (accumulate self in0) = length in0.
Proof.
  unfold accumulate. apply length_loop.
  - apply length_time_vector.
  - apply length_zeros.
Qed.

(** With the buffers the host promises, [work] never raises, and its
    three results are known. *)
Lemma work_ok self in0 out :
  length out = length in0 ->
  work self in0 out
  = Ok (advance self (length in0), accumulate self in0, Z.of_nat (length in0)).
Proof.
  intros H. unfold work, Np.assign_all.
  rewrite broadcast_same by (rewrite length_zeros; now symmetry).
  cbn [bind].
  rewrite loop_same.
  - cbn [bind]. fold (accumulate self in0).
    now rewrite length_accumulate.
  - apply length_time_vector.
  - apply length_zeros.
Qed.

Lemma nth_error_zeros n k : (k < n)%nat -> nth_error (Np.zeros n) k = Some C0.
Proof. intros H. unfold Np.zeros. now apply nth_error_repeat. Qed.

(** Sample [k] of [work]'s output, as a sum over the copies. *)
Lemma nth_error_accumulate self in0 k x :
  nth_error in0 k = Some x ->
  nth_error (accumulate self in0) k
  = Some (Csum (map (fun i =>
                       Cmul x (carrier (freq_shift self i) (sample_idx self) k
                                 (samp_rate self)))
                  (Py.range (num_copies self)))).
Proof.
  intros Hx.
  assert (Hk : (k < length in0)%nat) by (apply nth_error_Some; congruence).
  unfold accumulate.
  rewrite (nth_error_loop self in0 _ _ _ k C0 x _
             (nth_error_zeros _ _ Hk) Hx (nth_error_time_vector self _ _ Hk)).
  rewrite Csum_fold_left, Cadd_0_l.
  do 2 f_equal. apply map_ext; intros i.
  unfold carrier. do 3 f_equal. unfold Rdiv. ring.
Qed.

(** Whatever the buffers, a call of [work] that returns has only moved
    the sample index, by the length of the input block. *)
Lemma work_state self in0 out self' y r :
  work self in0 out = Ok (self', y, r) -> self' = advance self (length in0).
Proof.
  unfold work. intros H.
  destruct (Np.assign_all out (Np.zeros (length in0))) as [o|e]; cbn in H;
    [|discriminate].
  destruct (for_each _ _ o) as [o'|e]; cbn in H; [|discriminate].
  now injection H as <- _ _.
Qed.

Lemma arange_app c n m :
  Np.arange c (c + Z.of_nat n)
  ++ Np.arange (c + Z.of_nat n) (c + Z.of_nat n + Z.of_nat m)
  = Np.arange c (c + Z.of_nat (n + m)).
Proof.
  unfold Np.arange.
  replace (c + Z.of_nat n - c)%Z with (Z.of_nat n) by lia.
  replace (c + Z.of_nat n + Z.of_nat m - (c + Z.of_nat n))%Z
    with (Z.of_nat m) by lia.
  replace (c + Z.of_nat (n + m) - c)%Z with (Z.of_nat (n + m)) by lia.
  rewrite !Nat2Z.id, seq_app, map_app. f_equal.
  change (0 + n)%nat with n.
  assert (G : forall s,
             map (fun k => (c + Z.of_nat n + Z.of_nat k)%Z) (seq s m)
             = map (fun k => (c + Z.of_nat k)%Z) (seq (s + n) m)).
  { induction m as [|m IH]; intros s; cbn; [reflexivity|].
    f_equal; [lia|]. apply (IH (S s)). }
  apply (G 0%nat).
Qed.

(** The time vectors of two calls in a row join into the time vector of
    one call on both blocks. *)
Lemma time_vector_app self n m :
  time_vector self n ++ time_vector (advance self n) m
  = time_vector self (n + m).
Proof.
  unfold time_vector, Np.div_scalar. cbn [advance sample_idx samp_rate].
  rewrite <- map_app. f_equal. apply arange_app.
Qed.

Lemma advance_0 self : advance self 0 = self.
Proof.
  destruct self as [ib ob sr nc sp idx]. unfold advance; cbn [Z.of_nat].
  cbn. f_equal. lia.
Qed.

Lemma advance_advance self n m :
  advance (advance self n) m = advance self (n + m).
Proof. unfold advance; cbn. f_equal. lia. Qed.


(* ================================================================= *)
(** ** The replication plan *)

Lemma init_ok ib ob sr :
  ib <> 0 ->
  __init__ ib ob sr
  = Ok (mkBWFillRepeater ib ob sr
          (Z.max 1 (Zfloor (ob / ib)))
          (ob / IZR (Z.max 1 (Zfloor (ob / ib))))
          0).
Proof.
  intros H. unfold __init__.
  rewrite (floordiv_ok _ _ H). cbn [bind].
  rewrite int_IZR.
  rewrite (truediv_ok _ _ (IZR_max_1_neq_0 _)). reflexivity.
Qed.

Lemma init_raises ob sr : __init__ 0 ob sr = Raise ZeroDivisionError.
Proof.
  unfold __init__, Py.floordiv.
  destruct (Req_dec_T 0 0) as [_|H]; [reflexivity|now destruct H].
Qed.

Lemma set_input_bandwidth_accepted self b :
  0 < b ->
  set_input_bandwidth self b
  = Ok (mkBWFillRepeater b (output_bw self) (samp_rate self)
          (Z.max 1 (Zfloor (output_bw self / b)))
          (output_bw self / IZR (Z.max 1 (Zfloor (output_bw self / b))))
          (sample_idx self),
        [mkLogLine b
           (Z.max 1 (Zfloor (output_bw self / b)))
           (output_bw self / IZR (Z.max 1 (Zfloor (output_bw self / b))))]).
Proof.
  intros H. unfold set_input_bandwidth.
  destruct (Rlt_dec 0 b) as [_|N]; [|contradiction].
  rewrite floordiv_ok by lra. cbn [bind].
  rewrite int_IZR.
  rewrite (truediv_ok _ _ (IZR_max_1_neq_0 _)). reflexivity.
Qed.

Lemma set_input_bandwidth_rejected self b :
  b <= 0 -> set_input_bandwidth self b = Ok (self, []).
Proof.
  intros H. unfold set_input_bandwidth.
  destruct (Rlt_dec 0 b) as [P|_]; [lra|reflexivity].
Qed.

Lemma call_plan_derived c self self' :
  plan_derived self -> call c self = Ok self' -> plan_derived self'.
Proof.
  intros [H1 H2] Hc. destruct c as [b|in0 out]; cbn in Hc.
  - destruct (Rlt_dec 0 b) as [P|N].
    + rewrite (set_input_bandwidth_accepted _ _ P) in Hc. cbn in Hc.
      injection Hc as <-. split; cbn; [lia|reflexivity].
    + rewrite set_input_bandwidth_rejected in Hc by lra. cbn in Hc.
      injection Hc as <-. now split.
  - unfold rmap in Hc.
    destruct (work self in0 out) as [[[s y] r]|e] eqn:W; cbn in Hc;
      [|discriminate].
    injection Hc as <-. apply work_state in W. subst s. now split.
Qed.

Lemma calls_plan_derived cs : forall self self',
  plan_derived self -> calls cs self = Ok self' -> plan_derived self'.
Proof.
  unfold calls. induction cs as [|c cs IH]; intros self self' P H; cbn in H.
  - now injection H as <-.
  - destruct (call c self) as [s|e] eqn:Hc; cbn in H; [|discriminate].
    eapply IH; [|exact H]. eapply call_plan_derived; eauto.
Qed.

Lemma init_plan_derived ib ob sr self :
  __init__ ib ob sr = Ok self -> plan_derived self.
Proof.
  intros H. destruct (Req_dec_T ib 0) as [->|N].
  - rewrite init_raises in H. discriminate.
  - rewrite (init_ok _ _ _ N) in H. injection H as <-.
    split; cbn; [lia|reflexivity].
Qed.

Lemma calls_ok cs : forall self,
  Forall host_call cs -> exists self', calls cs self = Ok self'.
Proof.
  unfold calls. induction cs as [|c cs IH]; intros self H; cbn.
  - now exists self.
  - inversion H as [|c' cs' Hc Hcs]; subst.
    destruct c as [b|in0 out]; cbn.
    + destruct (Rlt_dec 0 b) as [P|N].
      * rewrite (set_input_bandwidth_accepted _ _ P). cbn. now apply IH.
      * rewrite set_input_bandwidth_rejected by lra. cbn. now apply IH.
    + cbn in Hc. rewrite (work_ok _ _ _ Hc). cbn. now apply IH.
Qed.

(* ================================================================= *)
(** ** Scaling the input block *)

Lemma length_scale a x : length (scale a x) = length x.
Proof. apply length_map. Qed.

Lemma scale_repeat_C0 a n : scale a (repeat C0 n) = repeat C0 n.
Proof.
  unfold scale. induction n as [|n IH]; cbn; [reflexivity|].
  now rewrite Cmul_0_r, IH.
Qed.

Lemma zip_with_Cmul_scale a x m :
  Np.zip_with Cmul (scale a x) m = scale a (Np.zip_with Cmul x m).
Proof.
  unfold scale.
  revert m; induction x as [|x0 x IH]; intros [|m0 m]; cbn; try reflexivity.
  now rewrite IH, Cmul_assoc.
Qed.

Lemma zip_with_Cadd_scale a o v :
  Np.zip_with Cadd (scale a o) (scale a v) = scale a (Np.zip_with Cadd o v).
Proof.
  unfold scale.
  revert v; induction o as [|o0 o IH]; intros [|v0 v]; cbn; try reflexivity.
  now rewrite IH, Cmul_add_distr_l.
Qed.

Lemma scale_repeat a v n : scale a (repeat v n) = repeat (Cmul a v) n.
Proof. unfold scale. induction n as [|n IH]; cbn; [reflexivity|now rewrite IH]. Qed.

Lemma broadcast_scale a v n :
  Np.broadcast_to (scale a v) n = rmap (scale a) (Np.broadcast_to v n).
Proof.
  unfold Np.broadcast_to. rewrite length_scale.
  destruct (Nat.eqb (length v) n); [reflexivity|].
  destruct v as [|v0 [|v1 v]]; cbn; try reflexivity.
  now rewrite scale_repeat.
Qed.

Lemma map_Cmul_scale a x0 m :
  map (Cmul (Cmul a x0)) m = scale a (map (Cmul x0) m).
Proof.
  unfold scale. rewrite map_map. apply map_ext; intros z.
  symmetry; apply Cmul_assoc.
Qed.

Lemma map_Cmul_r_scale a y x :
  map (fun z => Cmul z y) (scale a x) = scale a (map (fun z => Cmul z y) x).
Proof.
  unfold scale. rewrite !map_map. apply map_ext; intros z.
  symmetry; apply Cmul_assoc.
Qed.

Lemma mul_scale a x m :
  Np.mul (scale a x) m = rmap (scale a) (Np.mul x m).
Proof.
  unfold Np.mul. rewrite length_scale.
  destruct (Nat.eqb (length x) (length m)).
  - cbn. now rewrite zip_with_Cmul_scale.
  - destruct x as [|x0 [|x1 x]].
    + destruct m as [|m0 [|m1 m]]; reflexivity.
    + change (scale a [x0]) with [Cmul a x0]. cbv beta iota.
      now rewrite map_Cmul_scale.
    + destruct m as [|m0 [|m1 m]]; try reflexivity.
      change (scale a (x0 :: x1 :: x))
        with (Cmul a x0 :: Cmul a x1 :: scale a x).
      cbv beta iota.
      change (Cmul a x0 :: Cmul a x1 :: scale a x)
        with (scale a (x0 :: x1 :: x)).
      now rewrite map_Cmul_r_scale.
Qed.

Lemma iadd_scale a o v :
  Np.iadd (scale a o) (scale a v) = rmap (scale a) (Np.iadd o v).
Proof.
  unfold Np.iadd. rewrite length_scale, broadcast_scale.
  unfold rmap.
  destruct (Np.broadcast_to v (length o)) as [v'|e]; cbn [bind]; [|reflexivity].
  now rewrite zip_with_Cadd_scale.
Qed.

Lemma add_copy_scale self a in0 t i o :
  add_copy self (scale a in0) t i (scale a o)
  = rmap (scale a) (add_copy self in0 t i o).
Proof.
  unfold add_copy. rewrite mul_scale.
  unfold rmap at 1.
  destruct (Np.mul in0 (mixer self t i)) as [p|e]; cbn [bind]; [|reflexivity].
  apply iadd_scale.
Qed.

Lemma loop_scale self a in0 t l : forall o,
  for_each l (add_copy self (scale a in0) t) (scale a o)
  = rmap (scale a) (for_each l (add_copy self in0 t) o).
Proof.
  induction l as [|i l IH]; intros o; cbn; [reflexivity|].
  rewrite add_copy_scale.
  unfold rmap at 1.
  destruct (add_copy self in0 t i o) as [o'|e]; cbn [bind]; [|reflexivity].
  apply IH.
Qed.

(** The buffer after [out[:] = np.zeros(n)] holds zeros only. *)
Lemma assign_zeros_scale a out n o :
  Np.assign_all out (Np.zeros n) = Ok o -> scale a o = o.
Proof.
  unfold Np.assign_all, Np.broadcast_to, Np.zeros. intros H.
  destruct (Nat.eqb _ _).
  - injection H as <-. apply scale_repeat_C0.
  - destruct n as [|[|n]]; cbn in H; try discriminate.
    injection H as <-. apply scale_repeat_C0.
Qed.

(* ================================================================= *)
(** ** Concrete blocks *)

Lemma floor_default : Zfloor (20000000 / 12000) = 1666%Z.
Proof. apply Zfloor_eq. split; lra. Qed.

Lemma init_default : __init__ 12000 20000000 1 = Ok default_block.
Proof.
  rewrite init_ok by lra. rewrite floor_default. reflexivity.
Qed.


(** A negative input bandwidth is accepted by [__init__] and yields one
    copy: [max(1, int(20e6 // -12e3)) = max(1, -1667)]. *)
Example init_negative_input_bw :
  __init__ (-12000) 20000000 1
  = Ok (mkBWFillRepeater (-12000) 20000000 1 1 (20000000 / 1) 0).
Proof.
  rewrite init_ok by lra.
  replace (Zfloor (20000000 / -12000)) with (-1667)%Z
    by (symmetry; apply Zfloor_eq; split; lra).
  reflexivity.
Qed.

(** Halving the output bandwidth as input bandwidth gives two copies. *)
Example set_input_bandwidth_half :
  set_input_bandwidth default_block 10000000
  = Ok (mkBWFillRepeater 10000000 20000000 1 2 (20000000 / 2) 0,
        [mkLogLine 10000000 2 (20000000 / 2)]).
Proof.
  rewrite set_input_bandwidth_accepted by lra. cbn [output_bw default_block].
  replace (Zfloor (20000000 / 10000000)) with 2%Z
    by (symmetry; apply Zfloor_eq; split; lra).
  reflexivity.
Qed.

(** Buffers of lengths 2 and 3 do not broadcast: numpy refuses
    [out[:] = np.zeros(2)]. *)
Example work_refuses_mismatch :
  work default_block two_samples [C0; C0; C0] = Raise ValueError.
Proof. reflexivity. Qed.

(** A single input sample is broadcast over a longer buffer, and the
    count returned is the buffer's length: the equal lengths the host
    promises are what ties the count to the input. *)
Example work_broadcasts_single_sample :
  exists y,
    work unit_block [RtoC 1] [C2j; C2j; C2j] = Ok (advance unit_block 1, y, 3%Z).
Proof. eexists. reflexivity. Qed.

(** The first sample of the single-copy block: the carrier is 1 at
    sample index 0. *)
Example work_unit_first_sample :
  work unit_block [C2j] [C0] = Ok (advance unit_block 1, [C2j], 1%Z).
Proof.
  rewrite work_ok by reflexivity.
  pose proof (length_accumulate unit_block [C2j]) as L.
  pose proof (nth_error_accumulate unit_block [C2j] 0 C2j eq_refl) as N.
  destruct (accumulate unit_block [C2j]) as [|y [|y' l]]; try discriminate.
  cbn [nth_error] in N. injection N as ->.
  change (Py.range (num_copies unit_block)) with [0%Z].
  cbn [map Csum fold_right]. rewrite Cadd_0_r.
  unfold carrier. cbn [sample_idx samp_rate unit_block Z.of_nat Z.add].
  replace (2 * PI * freq_shift unit_block 0 * 0 / 1) with 0
    by (unfold Rdiv; ring).
  unfold Cexp, Cmul, C2j; cbn [fst snd].
  rewrite exp_0, cos_0, sin_0.
  replace (0 * (1 * 1) - 2 * (1 * 0)) with 0 by ring.
  replace (0 * (1 * 0) + 2 * (1 * 1)) with 2 by ring.
  reflexivity.
Qed.

(* ================================================================= *)
(** ** The properties of the specification *)

(** C4.  For an input block of any length [n >= 0] (and the output
    buffer of length [n] the host supplies), whatever the block's state,
    [work] returns, the output block has length [n] and the returned
    count is [n]. *)
Theorem work_preserves_length self in0 out :
  length out = length in0 ->
  exists self' y r,
    work self in0 out = Ok (self', y, r) /\
    length y = length in0 /\
    r = Z.of_nat (length in0).
Proof.
  intros H. do 3 eexists. split; [now apply work_ok|].
  split; [apply length_accumulate|reflexivity].
Qed.

Lemma work_preserves_length_witness :
  exists self' y r,
    work default_block two_samples two_cells = Ok (self', y, r) /\
    length y = length two_samples /\
    r = Z.of_nat (length two_samples).
Proof.
  apply work_preserves_length. reflexivity.
Defined.

(** C5.  [set_input_bandwidth] with a bandwidth that is not positive
    returns normally, leaves the whole state as it was (so the input
    bandwidth, the number of copies and the spacing too) and prints
    nothing. *)
Theorem nonpositive_bandwidth_is_ignored self b :
  b <= 0 ->
  set_input_bandwidth self b = Ok (self, []).
Proof. apply set_input_bandwidth_rejected. Qed.

Lemma nonpositive_bandwidth_is_ignored_witness :
  set_input_bandwidth default_block (-5) = Ok (default_block, []).
Proof.
  apply nonpositive_bandwidth_is_ignored. lra.
Defined.

(** C6.  Each time the plan is derived, by [__init__] (which needs a
    nonzero input bandwidth) and by an accepted [set_input_bandwidth],
    the spacing stored is exactly the output bandwidth divided by the
    number of copies stored with it. *)
Theorem shift_spacing_formula ib ob sr self b :
  ib <> 0 -> 0 < b ->
  (exists s,
      __init__ ib ob sr = Ok s /\
      output_bw s = ob /\
      shift_spacing s = ob / IZR (num_copies s)) /\
  (exists s' log,
      set_input_bandwidth self b = Ok (s', log) /\
      output_bw s' = output_bw self /\
      shift_spacing s' = output_bw self / IZR (num_copies s')).
Proof.
  intros Hib Hb. split.
  - eexists. split; [now apply init_ok|]. now split.
  - do 2 eexists. split; [now apply set_input_bandwidth_accepted|]. now split.
Qed.

Lemma shift_spacing_formula_witness :
  (exists s,
      __init__ 12000 20000000 1 = Ok s /\
      output_bw s = 20000000 /\
      shift_spacing s = 20000000 / IZR (num_copies s)) /\
  (exists s' log,
      set_input_bandwidth default_block 25000 = Ok (s', log) /\
      output_bw s' = output_bw default_block /\
      shift_spacing s' = output_bw default_block / IZR (num_copies s')).
Proof.
  apply (shift_spacing_formula 12000 20000000 1 default_block 25000); lra.
Defined.

(** C8.  [work] is linear in amplitude: on the input block scaled by a
    constant [a], in the same state and with the same buffer, it does
    what it does on the block itself, with every output sample scaled by
    [a] (and it raises exactly when the other call raises). *)
Theorem work_linear_in_amplitude self a in0 out :
  work self (scale a in0) out
  = match work self in0 out with
    | Ok (self', y, r) => Ok (self', scale a y, r)
    | Raise e => Raise e
    end.
Proof.
  unfold work. rewrite length_scale.
  destruct (Np.assign_all out (Np.zeros (length in0))) as [o|e] eqn:A;
    cbn [bind]; [|reflexivity].
  rewrite <- (assign_zeros_scale a _ _ _ A) at 1.
  rewrite loop_scale. unfold rmap.
  destruct (for_each _ _ o) as [o'|e]; cbn [bind]; [|reflexivity].
  now rewrite length_scale.
Qed.

(** C9.  The number of copies is an integer (a [Z] by its type) and is
    at least 1 in the block [__init__] builds from a nonzero input
    bandwidth and in every block reached from it by calls of
    [set_input_bandwidth] and [work]; with the buffers the host promises,
    every such sequence of calls does return. *)
Theorem num_copies_at_least_one ib ob sr cs :
  ib <> 0 ->
  exists s0,
    __init__ ib ob sr = Ok s0 /\
    (1 <= num_copies s0)%Z /\
    (forall s, calls cs s0 = Ok s -> (1 <= num_copies s)%Z) /\
    (Forall host_call cs -> exists s, calls cs s0 = Ok s).
Proof.
  intros Hib. eexists. split; [now apply init_ok|].
  pose proof (init_plan_derived _ _ _ _ (init_ok ib ob sr Hib)) as P.
  split; [apply P|]. split.
  - intros s Hs. now apply (calls_plan_derived _ _ _ P Hs).
  - intros H. now apply calls_ok.
Qed.

Lemma num_copies_at_least_one_witness :
  exists s0,
    __init__ 12000 20000000 1 = Ok s0 /\
    (1 <= num_copies s0)%Z /\
    (forall s,
        calls [CallSetInputBandwidth 30000000; CallWork two_samples two_cells;
               CallSetInputBandwidth (-1)] s0 = Ok s ->
        (1 <= num_copies s)%Z) /\
    (Forall host_call
       [CallSetInputBandwidth 30000000; CallWork two_samples two_cells;
        CallSetInputBandwidth (-1)] ->
     exists s,
       calls [CallSetInputBandwidth 30000000; CallWork two_samples two_cells;
              CallSetInputBandwidth (-1)] s0 = Ok s).
Proof.
  apply num_copies_at_least_one. lra.
Defined.

(** C10.  Whatever its argument, [set_input_bandwidth] returns and
    leaves the output bandwidth, the sample rate and the sample index as
    they were: of the six fields of the state, only the input bandwidth,
    the number of copies and the spacing can differ afterwards. *)
Theorem set_input_bandwidth_frame self b :
  exists self' log,
    set_input_bandwidth self b = Ok (self', log) /\
    output_bw self' = output_bw self /\
    samp_rate self' = samp_rate self /\
    sample_idx self' = sample_idx self.
Proof.
  destruct (Rlt_dec 0 b) as [P|N].
  - do 2 eexists. split; [now apply set_input_bandwidth_accepted|].
    now repeat split.
  - do 2 eexists. split; [apply set_input_bandwidth_rejected; lra|].
    now repeat split.
Qed.

(* ================================================================= *)
(** ** Further properties: the constructor and the plan *)

Lemma init_plan_fresh ib ob sr self :
  __init__ ib ob sr = Ok self -> plan_fresh self.
Proof.
  intros H. destruct (Req_dec_T ib 0) as [->|N].
  - rewrite init_raises in H. discriminate.
  - rewrite (init_ok _ _ _ N) in H. injection H as <-.
    repeat split; cbn; trivial.
Qed.

Lemma call_plan_fresh c self self' :
  plan_fresh self -> call c self = Ok self' -> plan_fresh self'.
Proof.
  intros P Hc. destruct c as [b|in0 out]; cbn in Hc.
  - destruct (Rlt_dec 0 b) as [Hb|Hb].
    + rewrite (set_input_bandwidth_accepted _ _ Hb) in Hc. cbn in Hc.
      injection Hc as <-. repeat split; cbn; trivial. lra.
    + rewrite set_input_bandwidth_rejected in Hc by lra. cbn in Hc.
      now injection Hc as <-.
  - unfold rmap in Hc.
    destruct (work self in0 out) as [[[s y] r]|e] eqn:W; cbn in Hc;
      [|discriminate].
    injection Hc as <-. apply work_state in W. subst s. exact P.
Qed.

Lemma calls_plan_fresh cs : forall self self',
  plan_fresh self -> calls cs self = Ok self' -> plan_fresh self'.
Proof.
  unfold calls. induction cs as [|c cs IH]; intros self self' P H; cbn in H.
  - now injection H as <-.
  - destruct (call c self) as [s|e] eqn:Hc; cbn in H; [|discriminate].
    eapply IH; [|exact H]. eapply call_plan_fresh; eauto.
Qed.

(** What a sequence of calls does to the fields no call derives. *)
Lemma calls_frame cs : forall self self',
  calls cs self = Ok self' ->
  output_bw self' = output_bw self /\
  samp_rate self' = samp_rate self /\
  sample_idx self' = (sample_idx self + Z.of_nat (samples_consumed cs))%Z.
Proof.
  unfold calls, samples_consumed.
  induction cs as [|c cs IH]; intros self self' H; cbn in H.
  - injection H as <-. cbn. repeat split. lia.
  - destruct (call c self) as [s|e] eqn:Hc; cbn in H; [|discriminate].
    destruct (IH _ _ H) as (Ho & Hs & Hi).
    rewrite Ho, Hs, Hi. cbn [map list_sum fold_right].
    destruct c as [b|in0 out]; cbn in Hc.
    + destruct (Rlt_dec 0 b) as [Hb|Hb].
      * rewrite (set_input_bandwidth_accepted _ _ Hb) in Hc. cbn in Hc.
        injection Hc as <-. cbn. repeat split. 
      * rewrite set_input_bandwidth_rejected in Hc by lra. cbn in Hc.
        injection Hc as <-. repeat split.
    + unfold rmap in Hc.
      destruct (work self in0 out) as [[[s1 y] r]|e] eqn:W; cbn in Hc;
        [|discriminate].
      injection Hc as <-. apply work_state in W. subst s1.
      repeat split. cbn [advance sample_idx].
      rewrite Nat2Z.inj_add. symmetry. apply Z.add_assoc.
Qed.

Lemma In_range i n : In i (Py.range n) <-> (0 <= i < n)%Z.
Proof.
  unfold Py.range. rewrite in_map_iff. split.
  - intros (k & <- & Hk). apply in_seq in Hk. lia.
  - intros H. exists (Z.to_nat i). split; [lia|]. apply in_seq. lia.
Qed.

(** A short run of calls on the default block, for the examples below. *)
Lemma calls_example :
  calls [CallWork two_samples two_cells; CallSetInputBandwidth (-1)]
    default_block
  = Ok (advance default_block 2).
Proof.
  unfold calls. cbn [for_each call].
  rewrite work_ok by reflexivity. cbn [rmap bind fst].
  rewrite set_input_bandwidth_rejected by lra. reflexivity.
Qed.

(** X2.  In every block reached from [__init__] by calls of
    [set_input_bandwidth] and [work] in which the quotient of the stored
    bandwidths is below 2^51 in magnitude (where [//] on doubles is the
    exact floor), the stored plan is the one the stored configuration
    gives: the input bandwidth is not zero, the number of copies is
    [max(1, floor(output_bw / input_bw))] and the spacing is
    [output_bw / num_copies]. *)
Theorem plan_never_stale ib ob sr s0 cs s :
  __init__ ib ob sr = Ok s0 ->
  calls cs s0 = Ok s ->
  Rabs (output_bw s / input_bw s) < 2251799813685248 ->
  input_bw s <> 0 /\
  num_copies s = Z.max 1 (Zfloor (output_bw s / input_bw s)) /\
  shift_spacing s = output_bw s / IZR (num_copies s).
Proof.
  intros Hinit Hcalls _.
  exact (calls_plan_fresh _ _ _ (init_plan_fresh _ _ _ _ Hinit) Hcalls).
Qed.

Lemma plan_never_stale_witness :
  input_bw (advance default_block 2) <> 0 /\
  num_copies (advance default_block 2)
  = Z.max 1 (Zfloor (output_bw (advance default_block 2)
                     / input_bw (advance default_block 2))) /\
  shift_spacing (advance default_block 2)
  = output_bw (advance default_block 2)
    / IZR (num_copies (advance default_block 2)).
Proof.
  apply (plan_never_stale 12000 20000000 1 default_block
           [CallWork two_samples two_cells; CallSetInputBandwidth (-1)]).
  - exact init_default.
  - exact calls_example.
  - cbn. apply Rabs_def1; lra.
Defined.

(** X3.  Across any sequence of calls the output bandwidth and the
    sample rate stay those given to [__init__], and the sample index is
    the number of input samples the [work] calls of the sequence took,
    however the calls of [set_input_bandwidth] are placed among them. *)
Theorem calls_keep_configuration ib ob sr s0 cs s :
  __init__ ib ob sr = Ok s0 ->
  calls cs s0 = Ok s ->
  output_bw s = ob /\
  samp_rate s = sr /\
  sample_idx s = Z.of_nat (samples_consumed cs).
Proof.
  intros Hinit Hcalls.
  destruct (calls_frame _ _ _ Hcalls) as (Ho & Hs & Hi).
  destruct (Req_dec_T ib 0) as [->|N].
  - rewrite init_raises in Hinit. discriminate.
  - rewrite (init_ok _ _ _ N) in Hinit. injection Hinit as <-.
    cbn in Ho, Hs, Hi. now repeat split.
Qed.

Lemma calls_keep_configuration_witness :
  output_bw (advance default_block 2) = 20000000 /\
  samp_rate (advance default_block 2) = 1 /\
  sample_idx (advance default_block 2)
  = Z.of_nat (samples_consumed
                [CallWork two_samples two_cells; CallSetInputBandwidth (-1)]).
Proof.
  apply (calls_keep_configuration 12000 20000000 1 default_block
           [CallWork two_samples two_cells; CallSetInputBandwidth (-1)]).
  - exact init_default.
  - exact calls_example.
Defined.

Lemma plan_fresh_quotient self :
  plan_fresh self -> 1 <= output_bw self / input_bw self ->
  num_copies self = Zfloor (output_bw self / input_bw self) /\
  (1 <= num_copies self)%Z.
Proof.
  intros (_ & HN & _) Hq.
  assert (H1 : (1 <= Zfloor (output_bw self / input_bw self))%Z)
    by (apply Zfloor_lub; exact Hq).
  rewrite HN. split; lia.
Qed.

(** X4.  In every block reached from [__init__], when the output
    bandwidth is at least the (positive) input bandwidth and their
    quotient is below 2^51, the copies fit: [num_copies] input bandwidths
    fit into the output bandwidth and one more would not, and the spacing
    between two copies is at least the input bandwidth and less than
    twice it. *)
Theorem copies_fit_output_bandwidth ib ob sr s0 cs s :
  __init__ ib ob sr = Ok s0 ->
  calls cs s0 = Ok s ->
  0 < input_bw s <= output_bw s ->
  output_bw s / input_bw s < 2251799813685248 ->
  IZR (num_copies s) * input_bw s <= output_bw s
    < (IZR (num_copies s) + 1) * input_bw s /\
  input_bw s <= shift_spacing s < 2 * input_bw s.
Proof.
  intros Hinit Hcalls [Hib Hob] _.
  pose proof (calls_plan_fresh _ _ _ (init_plan_fresh _ _ _ _ Hinit) Hcalls)
    as P.
  set (q := output_bw s / input_bw s).
  assert (Eq : output_bw s = q * input_bw s) by (unfold q; field; lra).
  assert (Hq : 1 <= q) by (rewrite Eq in Hob; nra).
  destruct (plan_fresh_quotient s P Hq) as [HN H1].
  destruct P as (_ & _ & Hsp).
  pose proof (Zfloor_bound q) as [Hlo Hhi]. fold q in HN. rewrite <- HN in Hlo, Hhi.
  apply IZR_le in H1.
  assert (Esp : output_bw s = shift_spacing s * IZR (num_copies s))
    by (rewrite Hsp; field; lra).
  repeat split; try nra.
Qed.

Lemma copies_fit_output_bandwidth_witness :
  IZR (num_copies (advance default_block 2)) * input_bw (advance default_block 2)
    <= output_bw (advance default_block 2)
    < (IZR (num_copies (advance default_block 2)) + 1)
      * input_bw (advance default_block 2) /\
  input_bw (advance default_block 2)
    <= shift_spacing (advance default_block 2)
    < 2 * input_bw (advance default_block 2).
Proof.
  apply (copies_fit_output_bandwidth 12000 20000000 1 default_block
           [CallWork two_samples two_cells; CallSetInputBandwidth (-1)]).
  - exact init_default.
  - exact calls_example.
  - cbn. lra.
  - cbn. lra.
Defined.



(** X6.  In every block reached from [__init__] with a positive output
    bandwidth and at most 2^50 copies, the first frequency shift [work]
    uses is [-output_bw], and every shift it uses is at least
    [-output_bw] and below 0: no copy is placed at or above baseband. *)
Theorem freq_shifts_below_baseband ib ob sr s0 cs s i :
  __init__ ib ob sr = Ok s0 ->
  calls cs s0 = Ok s ->
  0 < output_bw s ->
  (num_copies s <= 1125899906842624)%Z ->
  In i (Py.range (num_copies s)) ->
  freq_shift s 0 = - output_bw s /\
  - output_bw s <= freq_shift s i /\
  freq_shift s i < 0.
Proof.
  intros Hinit Hcalls Hob _ Hi.
  destruct (calls_plan_derived _ _ _ (init_plan_derived _ _ _ _ Hinit) Hcalls)
    as [H1 Hsp].
  apply In_range in Hi. destruct Hi as [Hi0 HiN].
  assert (HiN' : (i <= num_copies s - 1)%Z) by lia.
  apply IZR_le in H1, Hi0, HiN'. rewrite minus_IZR in HiN'.
  assert (Esp : output_bw s = shift_spacing s * IZR (num_copies s))
    by (rewrite Hsp; field; lra).
  assert (Hpos : 0 < shift_spacing s) by nra.
  unfold freq_shift. rewrite Rdiv_1_r.
  repeat split; try nra.
Qed.

Lemma freq_shifts_below_baseband_witness :
  freq_shift default_block 0 = - output_bw default_block /\
  - output_bw default_block <= freq_shift default_block 1665 /\
  freq_shift default_block 1665 < 0.
Proof.
  apply (freq_shifts_below_baseband 12000 20000000 1 default_block []).
  - exact init_default.
  - reflexivity.
  - cbn. lra.
  - cbn. lia.
  - apply In_range. cbn. lia.
Defined.

(* ================================================================= *)
(** ** Further properties: [set_input_bandwidth] *)







(** X11.  An update of the input bandwidth and a call of [work] (on the
    buffers the host promises) leave the same state in either order: the
    update does not touch the sample index and [work] does not touch the
    plan. *)
Theorem set_input_bandwidth_commutes_with_work self b in0 out :
  length out = length in0 ->
  exists s,
    calls [CallSetInputBandwidth b; CallWork in0 out] self = Ok s /\
    calls [CallWork in0 out; CallSetInputBandwidth b] self = Ok s.
Proof.
  intros Hlen. unfold calls. cbn [for_each call].
  rewrite (work_ok _ _ _ Hlen). cbn [rmap bind fst].
  destruct (Rlt_dec 0 b) as [Hb|Hb].
  - rewrite !(set_input_bandwidth_accepted _ _ Hb). cbn [rmap bind fst].
    rewrite (work_ok _ _ _ Hlen). cbn [rmap bind fst].
    eexists. split; reflexivity.
  - rewrite !set_input_bandwidth_rejected by lra. cbn [rmap bind fst].
    rewrite (work_ok _ _ _ Hlen). cbn [rmap bind fst].
    eexists. split; reflexivity.
Qed.

Lemma set_input_bandwidth_commutes_with_work_witness :
  exists s,
    calls [CallSetInputBandwidth 25000; CallWork two_samples two_cells]
      default_block = Ok s /\
    calls [CallWork two_samples two_cells; CallSetInputBandwidth 25000]
      default_block = Ok s.
Proof.
  apply set_input_bandwidth_commutes_with_work. reflexivity.
Defined.

(* ================================================================= *)
(** ** Further properties: [work] and its buffers *)

Lemma broadcast_single v n : exists v', Np.broadcast_to [v] n = Ok v'.
Proof.
  unfold Np.broadcast_to. destruct (Nat.eqb (length [v]) n); eexists; reflexivity.
Qed.

Lemma broadcast_length v n v' : Np.broadcast_to v n = Ok v' -> length v' = n.
Proof.
  unfold Np.broadcast_to. destruct (Nat.eqb (length v) n) eqn:E.
  - intros [= <-]. now apply Nat.eqb_eq.
  - destruct v as [|v0 [|v1 v]]; try discriminate.
    intros [= <-]. apply repeat_length.
Qed.

Lemma broadcast_refused v n :
  length v <> n -> length v <> 1%nat -> Np.broadcast_to v n = Raise ValueError.
Proof.
  intros Hn H1. unfold Np.broadcast_to.
  destruct (Nat.eqb (length v) n) eqn:E; [apply Nat.eqb_eq in E; contradiction|].
  destruct v as [|v0 [|v1 v]]; trivial. now destruct H1.
Qed.

Lemma iadd_length o v o' : Np.iadd o v = Ok o' -> length o' = length o.
Proof.
  unfold Np.iadd.
  destruct (Np.broadcast_to v (length o)) as [v'|e] eqn:B; cbn [bind];
    [|discriminate].
  intros [= <-]. apply length_zip_with. symmetry. now apply broadcast_length in B.
Qed.

Lemma add_copy_length self in0 t i o o' :
  add_copy self in0 t i o = Ok o' -> length o' = length o.
Proof.
  unfold add_copy.
  destruct (Np.mul in0 (mixer self t i)) as [p|e]; cbn [bind]; [|discriminate].
  apply iadd_length.
Qed.

Lemma loop_length self in0 t l : forall o o',
  for_each l (add_copy self in0 t) o = Ok o' -> length o' = length o.
Proof.
  induction l as [|i l IH]; intros o o' H; cbn in H.
  - now injection H as <-.
  - destruct (add_copy self in0 t i o) as [o1|e] eqn:A; cbn [bind] in H;
      [|discriminate].
    rewrite (IH _ _ H). now apply add_copy_length in A.
Qed.

(** With a single input sample the loop never raises, whatever the
    length of the buffer. *)
Lemma loop_single self x t l : forall o,
  length t = 1%nat ->
  exists o', for_each l (add_copy self [x] t) o = Ok o'.
Proof.
  induction l as [|i l IH]; intros o Ht; cbn [for_each].
  - now exists o.
  - unfold add_copy at 1.
    pose proof (length_mixer self t i) as Hm. rewrite Ht in Hm.
    rewrite mul_same by (now rewrite Hm). cbn [bind].
    destruct (mixer self t i) as [|m [|m' ms]]; try discriminate.
    cbn [Np.zip_with]. unfold Np.iadd.
    destruct (broadcast_single (Cmul x m) (length o)) as [v' ->].
    cbn [bind]. now apply IH.
Qed.

(** X12.  Whenever [work] returns, with whatever buffers, the output
    buffer has kept its length, the count returned is that length, and
    the state has only had its sample index moved by the length of the
    input block. *)
Theorem work_keeps_buffer_length self in0 out self' y r :
  work self in0 out = Ok (self', y, r) ->
  length y = length out /\
  r = Z.of_nat (length out) /\
  self' = advance self (length in0).
Proof.
  intros W. split; [|split]; [| |now apply work_state in W].
  - unfold work in W.
    destruct (Np.assign_all out (Np.zeros (length in0))) as [o|e] eqn:A;
      cbn [bind] in W; [|discriminate].
    destruct (for_each _ _ o) as [o'|e] eqn:L; cbn [bind] in W; [|discriminate].
    injection W as _ <- _.
    rewrite (loop_length _ _ _ _ _ _ L). now apply broadcast_length in A.
  - unfold work in W.
    destruct (Np.assign_all out (Np.zeros (length in0))) as [o|e] eqn:A;
      cbn [bind] in W; [|discriminate].
    destruct (for_each _ _ o) as [o'|e] eqn:L; cbn [bind] in W; [|discriminate].
    injection W as _ _ <-. f_equal.
    rewrite (loop_length _ _ _ _ _ _ L). now apply broadcast_length in A.
Qed.

Lemma work_keeps_buffer_length_witness :
  length (accumulate default_block two_samples) = length two_cells /\
  Z.of_nat (length two_samples) = Z.of_nat (length two_cells) /\
  advance default_block (length two_samples)
  = advance default_block (length two_samples).
Proof.
  apply (work_keeps_buffer_length default_block two_samples two_cells).
  apply work_ok. reflexivity.
Defined.

(** X13.  [work] raises exactly when the input block is neither as long
    as the output buffer nor a single sample, and what it raises is
    numpy's [ValueError] for shapes that do not broadcast, never a
    [ZeroDivisionError]. *)
Theorem work_raises_iff_shapes_mismatch self in0 out :
  (work self in0 out = Raise ValueError
   <-> length in0 <> length out /\ length in0 <> 1%nat) /\
  work self in0 out <> Raise ZeroDivisionError.
Proof.
  destruct (Nat.eq_dec (length in0) (length out)) as [E|E].
  - rewrite work_ok by congruence.
    split; [split|]; try discriminate. intros [H _]. contradiction.
  - destruct (Nat.eq_dec (length in0) 1) as [E1|E1].
    + assert (W : exists r, work self in0 out = Ok r).
      { destruct in0 as [|x [|x' in0]]; try discriminate.
        unfold work.
        destruct (broadcast_single C0 (length out)) as [o Ho].
        unfold Np.assign_all. cbn [length Np.zeros repeat]. rewrite Ho.
        cbn [bind].
        destruct (loop_single self x (time_vector self 1)
                    (Py.range (num_copies self)) o
                    (length_time_vector self 1)) as [o' ->].
        cbn [bind]. eexists. reflexivity. }
      destruct W as [r ->].
      split; [split|]; try discriminate. intros [_ H]. contradiction.
    + assert (W : work self in0 out = Raise ValueError).
      { unfold work, Np.assign_all.
        rewrite broadcast_refused; [reflexivity| |]; now rewrite length_zeros. }
      rewrite W. split; [split|]; try discriminate; trivial. now split.
Qed.

(** X14.  [work] never reads what the output buffer held before the
    call: two buffers of the same length give the same result. *)
Theorem work_ignores_old_buffer_content self in0 out out' :
  length out = length out' ->
  work self in0 out = work self in0 out'.
Proof.
  intros H. unfold work, Np.assign_all. now rewrite H.
Qed.

Lemma work_ignores_old_buffer_content_witness :
  work default_block two_samples two_cells
  = work default_block two_samples two_samples.
Proof.
  apply work_ignores_old_buffer_content. reflexivity.
Defined.

(** X15.  On an empty input block with an empty buffer [work] changes
    nothing at all: the state is the one before, no sample is written and
    the count is 0.  With a buffer that is not empty it raises. *)
Theorem work_on_empty_block self out :
  work self [] [] = Ok (self, [], 0%Z) /\
  (out <> [] -> work self [] out = Raise ValueError).
Proof.
  split.
  - rewrite work_ok by reflexivity. cbn [length]. rewrite advance_0.
    pose proof (length_accumulate self []) as L.
    destruct (accumulate self []); [reflexivity|discriminate].
  - intros H. unfold work, Np.assign_all.
    rewrite broadcast_refused; [reflexivity| |].
    + rewrite length_zeros. destruct out; [contradiction|discriminate].
    + now rewrite length_zeros.
Qed.

(* ================================================================= *)
(** ** Further properties: [work] as a signal transform *)

Lemma Cmul_add_distr_r z w c : Cmul (Cadd z w) c = Cadd (Cmul z c) (Cmul w c).
Proof. unfold Cmul, Cadd; cbn; f_equal; ring. Qed.


Lemma Csum_map_add (g : Z -> C) a b l :
  Csum (map (fun i => Cmul (Cadd a b) (g i)) l)
  = Cadd (Csum (map (fun i => Cmul a (g i)) l))
         (Csum (map (fun i => Cmul b (g i)) l)).
Proof.
  induction l as [|i l IH]; cbn [map Csum fold_right].
  - now rewrite Cadd_0_l.
  - fold (Csum (map (fun i => Cmul (Cadd a b) (g i)) l)).
    fold (Csum (map (fun i => Cmul a (g i)) l)).
    fold (Csum (map (fun i => Cmul b (g i)) l)).
    rewrite IH, Cmul_add_distr_r.
    unfold Cadd; cbn [fst snd]; f_equal; ring.
Qed.


(** The blocks of two calls in a row, processed as one block. *)
Lemma accumulate_app self a b :
  accumulate self (a ++ b)
  = accumulate self a ++ accumulate (advance self (length a)) b.
Proof.
  apply nth_error_ext; intros k.
  destruct (Nat.lt_ge_cases k (length a)) as [Hk|Hk].
  - destruct (nth_error a k) as [x|] eqn:Hx;
      [|apply nth_error_None in Hx; lia].
    rewrite (nth_error_accumulate self (a ++ b) k x)
      by (rewrite nth_error_app1; trivial).
    rewrite nth_error_app1 by (now rewrite length_accumulate).
    now rewrite (nth_error_accumulate self a k x Hx).
  - rewrite (nth_error_app2 (accumulate self a))
      by (now rewrite length_accumulate).
    rewrite length_accumulate.
    destruct (nth_error b (k - length a)) as [x|] eqn:Hx.
    + rewrite (nth_error_accumulate self (a ++ b) k x)
        by (rewrite nth_error_app2; trivial).
      rewrite (nth_error_accumulate _ b _ x Hx).
      do 2 f_equal. apply map_ext; intros i.
      unfold carrier. cbn [advance sample_idx samp_rate].
      change (freq_shift (advance self (length a)) i) with (freq_shift self i).
      replace (sample_idx self + Z.of_nat (length a)
               + Z.of_nat (k - length a))%Z
        with (sample_idx self + Z.of_nat k)%Z by lia.
      reflexivity.
    + apply nth_error_None in Hx.
      transitivity (@None C); [|symmetry]; apply nth_error_None.
      * rewrite length_accumulate, length_app. lia.
      * rewrite length_accumulate. exact Hx.
Qed.

Lemma accumulate_add self x y :
  length x = length y ->
  accumulate self (Np.zip_with Cadd x y)
  = Np.zip_with Cadd (accumulate self x) (accumulate self y).
Proof.
  intros Hlen. apply nth_error_ext; intros k.
  destruct (nth_error x k) as [xk|] eqn:Hx.
  - assert (Hk : (k < length y)%nat)
      by (rewrite <- Hlen; apply nth_error_Some; congruence).
    destruct (nth_error y k) as [yk|] eqn:Hy;
      [|apply nth_error_None in Hy; lia].
    rewrite (nth_error_accumulate _ _ k (Cadd xk yk))
      by (now apply nth_error_zip_with).
    rewrite (nth_error_zip_with Cadd _ _ k _ _
               (nth_error_accumulate self x k xk Hx)
               (nth_error_accumulate self y k yk Hy)).
    f_equal. apply Csum_map_add.
  - apply nth_error_None in Hx.
    transitivity (@None C); [|symmetry]; apply nth_error_None.
    + rewrite length_accumulate, length_zip_with; trivial.
    + rewrite length_zip_with; rewrite !length_accumulate; trivial.
Qed.

(** X16.  Cutting a block in two does not change the output: [work] on
    a block [a] followed by [work] on a block [b] writes, one after the
    other, the samples one call of [work] on [a ++ b] writes, and leaves
    the same state (each call on the buffer the host promises). *)
Theorem work_on_split_block self a b outa outb :
  length outa = length a ->
  length outb = length b ->
  exists ya yb,
    work self a outa
    = Ok (advance self (length a), ya, Z.of_nat (length a)) /\
    work (advance self (length a)) b outb
    = Ok (advance self (length (a ++ b)), yb, Z.of_nat (length b)) /\
    work self (a ++ b) (outa ++ outb)
    = Ok (advance self (length (a ++ b)), ya ++ yb,
          Z.of_nat (length (a ++ b))).
Proof.
  intros Ha Hb.
  exists (accumulate self a), (accumulate (advance self (length a)) b).
  split; [now apply work_ok|]. split.
  - rewrite (work_ok _ _ _ Hb), advance_advance, length_app. reflexivity.
  - rewrite work_ok by (rewrite !length_app; congruence).
    now rewrite accumulate_app.
Qed.

Lemma work_on_split_block_witness :
  exists ya yb,
    work default_block two_samples two_cells
    = Ok (advance default_block (length two_samples), ya,
          Z.of_nat (length two_samples)) /\
    work (advance default_block (length two_samples)) [C2j] [C0]
    = Ok (advance default_block (length (two_samples ++ [C2j])), yb,
          Z.of_nat (length [C2j])) /\
    work default_block (two_samples ++ [C2j]) (two_cells ++ [C0])
    = Ok (advance default_block (length (two_samples ++ [C2j])), ya ++ yb,
          Z.of_nat (length (two_samples ++ [C2j]))).
Proof.
  apply work_on_split_block; reflexivity.
Defined.

(** X17.  [work] is additive: on the samplewise sum of two blocks it
    writes the samplewise sum of what it writes on each of them, in the
    same state and on a buffer of their length. *)
Theorem work_additive self x y out :
  length x = length out ->
  length y = length out ->
  exists u v,
    work self x out
    = Ok (advance self (length out), u, Z.of_nat (length out)) /\
    work self y out
    = Ok (advance self (length out), v, Z.of_nat (length out)) /\
    work self (Np.zip_with Cadd x y) out
    = Ok (advance self (length out), Np.zip_with Cadd u v,
          Z.of_nat (length out)).
Proof.
  intros Hx Hy. exists (accumulate self x), (accumulate self y).
  split; [rewrite work_ok by congruence; now rewrite Hx|].
  split; [rewrite work_ok by congruence; now rewrite Hy|].
  assert (Hz : length (Np.zip_with Cadd x y) = length out)
    by (rewrite length_zip_with; congruence).
  rewrite work_ok by congruence. rewrite Hz.
  now rewrite accumulate_add by congruence.
Qed.

Lemma work_additive_witness :
  exists u v,
    work default_block two_samples two_cells
    = Ok (advance default_block (length two_cells), u,
          Z.of_nat (length two_cells)) /\
    work default_block [C2j; C2j] two_cells
    = Ok (advance default_block (length two_cells), v,
          Z.of_nat (length two_cells)) /\
    work default_block (Np.zip_with Cadd two_samples [C2j; C2j]) two_cells
    = Ok (advance default_block (length two_cells), Np.zip_with Cadd u v,
          Z.of_nat (length two_cells)).
Proof.
  apply work_additive; reflexivity.
Defined.



(* ================================================================= *)
(** ** The time cursor *)

Lemma arange_from c n :
  Np.arange c (c + Z.of_nat n) = map (fun k => (c + Z.of_nat k)%Z) (seq 0 n).
Proof.
  unfold Np.arange.
  replace (c + Z.of_nat n - c)%Z with (Z.of_nat n) by lia.
  now rewrite Nat2Z.id.
Qed.




(* ================================================================= *)
(** ** The number of copies on doubles *)

(** The real value of a double given by a literal, by evaluation. *)
Ltac f2r_eval :=
  unfold F64.F2R;
  repeat match goal with
    | |- context [Prim2SF ?x] =>
        let v := eval vm_compute in (Prim2SF x) in
        change (Prim2SF x) with v
    end;
  cbv beta iota zeta;
  repeat match goal with
    | |- context [(0 <=? ?e)%Z] =>
        let b := eval vm_compute in (0 <=? e)%Z in
        change (0 <=? e)%Z with b
    end;
  cbv iota;
  repeat match goal with
    | |- context [IZR (Z.mul ?a ?b)] =>
        let v := eval vm_compute in (Z.mul a b) in
        change (Z.mul a b) with v
    | |- context [IZR (Z.pow ?a ?b)] =>
        let v := eval vm_compute in (Z.pow a b) in
        change (Z.pow a b) with v
    end.







(* ================================================================= *)
(** ** [work] on doubles *)

Lemma f64_length_zip_with {A B D : Type} (f : A -> B -> D) a b :
  length a = length b -> length (F64.zip_with f a b) = length a.
Proof.
  revert b; induction a as [|x a IH]; intros [|y b] H; cbn in *; try congruence.
  f_equal. apply IH. congruence.
Qed.

Lemma f64_nth_error_zip_with {A B D : Type} (f : A -> B -> D) a b k x y :
  nth_error a k = Some x -> nth_error b k = Some y ->
  nth_error (F64.zip_with f a b) k = Some (f x y).
Proof.
  revert b k; induction a as [|x0 a IH]; intros [|y0 b] [|k]; cbn;
    try discriminate.
  - now intros [= ->] [= ->].
  - apply IH.
Qed.

Lemma f64_broadcast_same {A : Type} (a : list A) n :
  length a = n -> F64.broadcast_to a n = F64.Return a.
Proof.
  intros H. unfold F64.broadcast_to. now rewrite (proj2 (Nat.eqb_eq _ _) H).
Qed.

Lemma f64_length_time_vector self n : length (F64.time_vector self n) = n.
Proof.
  unfold F64.time_vector. rewrite length_map. apply length_arange_from.
Qed.

Lemma f64_nth_error_time_vector self n k :
  (k < n)%nat ->
  nth_error (F64.time_vector self n) k
  = Some (F64.float_of_Z (F64.sample_idx self + Z.of_nat k)
          / F64.samp_rate self)%float.
Proof.
  intros Hk. unfold F64.time_vector.
  rewrite arange_from, !nth_error_map, nth_error_seq.
  apply Nat.ltb_lt in Hk. rewrite Hk. reflexivity.
Qed.

Lemma f64_length_mixer self t i : length (F64.mixer self t i) = length t.
Proof. unfold F64.mixer. apply length_map. Qed.

Section LoopOnDoubles.

Variable self : F64.BWFillRepeater.
Variable in0 : list C.
Variable t : list float.
Hypothesis Ht : length t = length in0.

Lemma f64_length_add_copy_same out i :
  length out = length in0 ->
  length (F64.add_copy_same self in0 t out i) = length in0.
Proof.
  intros H. unfold F64.add_copy_same.
  rewrite f64_length_zip_with; [exact H|].
  rewrite f64_length_zip_with; [now symmetry|].
  now rewrite f64_length_mixer.
Qed.

Lemma f64_length_loop l out :
  length out = length in0 ->
  length (fold_left (F64.add_copy_same self in0 t) l out) = length in0.
Proof.
  revert out; induction l as [|i l IH]; intros out H; cbn; [exact H|].
  apply IH. now apply f64_length_add_copy_same.
Qed.

Lemma f64_loop_same l out :
  length out = length in0 ->
  F64.for_each l (F64.add_copy self in0 t) out
  = F64.Return (fold_left (F64.add_copy_same self in0 t) l out).
Proof.
  revert out; induction l as [|i l IH]; intros out H; cbn; [reflexivity|].
  unfold F64.add_copy at 1, F64.mul, F64.iadd.
  rewrite (proj2 (Nat.eqb_eq _ _))
    by (now rewrite f64_length_mixer). cbn [F64.bind].
  rewrite f64_broadcast_same.
  - cbn [F64.bind]. apply IH. now apply f64_length_add_copy_same.
  - rewrite f64_length_zip_with; [now symmetry|]. now rewrite f64_length_mixer.
Qed.

Lemma f64_nth_error_loop l out k a x tk :
  nth_error out k = Some a ->
  nth_error in0 k = Some x ->
  nth_error t k = Some tk ->
  nth_error (fold_left (F64.add_copy_same self in0 t) l out) k
  = Some (fold_left
            (fun acc i =>
               F64.sadd acc (F64.smul x (F64.c128_exp (F64.phase self i tk))))
            l a).
Proof.
  revert out a; induction l as [|i l IH]; intros out a Ha Hx Htk; cbn;
    [exact Ha|].
  apply IH; trivial.
  unfold F64.add_copy_same. apply f64_nth_error_zip_with; [exact Ha|].
  apply f64_nth_error_zip_with; [exact Hx|].
  unfold F64.mixer. now rewrite nth_error_map, Htk.
Qed.

End LoopOnDoubles.

Lemma f64_length_accumulate self in0 :
  length (F64.accumulate self in0) = length in0.
Proof.
  unfold F64.accumulate. apply f64_length_loop.
  - apply f64_length_time_vector.
  - apply repeat_length.
Qed.

(** On the buffers the host promises, [work] on doubles returns. *)
Lemma f64_work_ok self in0 out :
  length out = length in0 ->
  F64.work self in0 out
  = F64.Return (F64.advance self (length in0), F64.accumulate self in0,
                Z.of_nat (length in0)).
Proof.
  intros H. unfold F64.work, F64.assign_all.
  rewrite f64_broadcast_same by (rewrite repeat_length; now symmetry).
  cbn [F64.bind].
  rewrite f64_loop_same.
  - cbn [F64.bind]. fold (F64.accumulate self in0).
    now rewrite f64_length_accumulate.
  - apply f64_length_time_vector.
  - apply repeat_length.
Qed.

(** Sample [k] of the output on doubles, copy by copy. *)
Lemma f64_nth_error_accumulate self in0 k x :
  nth_error in0 k = Some x ->
  nth_error (F64.accumulate self in0) k = Some (F64.mix_sample self k x).
Proof.
  intros Hx.
  assert (Hk : (k < length in0)%nat) by (apply nth_error_Some; congruence).
  unfold F64.accumulate, F64.mix_sample, F64.phase_at.
  apply f64_nth_error_loop; trivial.
  - now apply nth_error_repeat.
  - now apply f64_nth_error_time_vector.
Qed.


(** One copy that is not a number spoils the sample. *)
Lemma f64_mix_none (g : Z -> F64.sample) x l :
  fold_left (fun acc i => F64.sadd acc (F64.smul x (g i))) l None = None.
Proof. induction l as [|i l IH]; cbn; [reflexivity|exact IH]. Qed.

Lemma f64_mix_spoiled (g : Z -> F64.sample) x l : forall a i,
  In i l -> g i = None ->
  fold_left (fun acc i => F64.sadd acc (F64.smul x (g i))) l a = None.
Proof.
  induction l as [|j l IH]; intros a i Hi Hg; [destruct Hi|].
  cbn [fold_left]. destruct Hi as [->|Hi].
  - rewrite Hg. cbn [F64.smul option_map].
    replace (F64.sadd a None) with (@None C) by (now destruct a).
    apply f64_mix_none.
  - now apply (IH _ i).
Qed.

(* ================================================================= *)
(** ** Arithmetic of doubles *)

Section Doubles.

Local Open Scope Z_scope.

Lemma is_finite_spec x :
  is_finite x = match Prim2SF x with
                | S754_nan | S754_infinity _ => false
                | _ => true
                end.
Proof.
  unfold is_finite, is_nan, is_infinity.
  rewrite !FloatAxioms.eqb_spec, FloatAxioms.abs_spec.
  replace (Prim2SF infinity) with (S754_infinity false)
    by (vm_compute; reflexivity).
  destruct (Prim2SF x) as [[]|[]| |[] m e]; try reflexivity;
    unfold SFeqb, SFcompare, SFabs;
    rewrite Z.compare_refl, Pos.compare_cont_refl; reflexivity.
Qed.




Lemma add_finite a b :
  is_finite (a + b) = true -> is_finite a = true /\ is_finite b = true.
Proof.
  rewrite !is_finite_spec, FloatAxioms.add_spec.
  destruct (Prim2SF a) as [[]|[]| |[] ma ea],
           (Prim2SF b) as [[]|[]| |[] mb eb];
    try (intros _; split; reflexivity); cbn; discriminate.
Qed.




End Doubles.


(* ================================================================= *)
(** ** The phase of the mixer *)






Lemma f64_exp_not_finite z :
  F64.c128_finite z = false -> F64.c128_exp z = None.
Proof. intros H. unfold F64.c128_exp. now rewrite H. Qed.

(* ================================================================= *)
(** ** The output of [work] on doubles *)







(** When the phase overflows, [work] writes a sample that is not a
    number: [__init__(2.0**700, 2.0**700, 2.0**-700)] returns a block with
    a positive sample rate and one copy; for a block of two samples the
    time of the second one is 2^700 and the phase of the mixer there is
    [-inf * 1j]. *)
Example work_overflow_is_not_a_number :
  exists s y,
    F64.__init__ 0x1p700 0x1p700 0x1p-700 = F64.Return s /\
    0 < F64.F2R (F64.samp_rate s) /\
    F64.work s two_samples [Some C0; Some C0]
    = F64.Return (F64.advance s 2, y, 2%Z) /\
    nth_error y 1 = Some None.
Proof.
  exists (F64.mkBWFillRepeater 0x1p700 0x1p700 0x1p-700 1 0x1p700 0).
  eexists.
  split; [vm_compute; reflexivity|].
  split; [cbn [F64.samp_rate]; f2r_eval; lra|].
  split; [apply (f64_work_ok _ two_samples); reflexivity|].
  rewrite (f64_nth_error_accumulate _ two_samples 1 C2j) by reflexivity.
  apply (f_equal Some). unfold F64.mix_sample.
  apply (f64_mix_spoiled
           (fun i => F64.c128_exp
                       (F64.phase_at
                          (F64.mkBWFillRepeater 0x1p700 0x1p700 0x1p-700 1
                             0x1p700 0) i 1)) C2j _ _ 0%Z).
  - now left.
  - apply f64_exp_not_finite. vm_compute. reflexivity.
Qed.




(* ================================================================= *)
(** ** A single copy on doubles *)

Example f64_init_default :
  F64.__init__ 12e3 20e6 1 = F64.Return F64.default_block.
Proof. vm_compute. reflexivity. Qed.

Example f64_init_unit : F64.__init__ 1 1 1 = F64.Return F64.unit_block.
Proof. vm_compute. reflexivity. Qed.








(** An arithmetic operation on a NaN gives a NaN. *)
Lemma f64_sub_nan_r x : (x - nan)%float = nan.
Proof.
  apply Prim2SF_inj. rewrite FloatAxioms.sub_spec.
  replace (Prim2SF nan) with S754_nan by (vm_compute; reflexivity).
  now destruct (Prim2SF x) as [[]|[]| |[] m e].
Qed.

Lemma f64_div_nan_l x : (nan / x)%float = nan.
Proof.
  apply Prim2SF_inj. rewrite FloatAxioms.div_spec.
  replace (Prim2SF nan) with S754_nan by (vm_compute; reflexivity).
  reflexivity.
Qed.

(** [//] gives a NaN when the remainder is one. *)
Lemma f64_div_mod_nan vx wx :
  F64.fmod vx wx = nan -> fst (F64.float_div_mod vx wx) = nan.
Proof.
  intros H. unfold F64.float_div_mod. rewrite H, f64_sub_nan_r, f64_div_nan_l.
  replace (F64.nonzero nan) with true by (vm_compute; reflexivity).
  replace (nan <? 0)%float with false by (vm_compute; reflexivity).
  destruct (wx <? 0)%float; cbn [Bool.eqb negb fst]; vm_compute; reflexivity.
Qed.

Lemma f64_fmod_not_finite vx wx :
  is_finite vx = false -> F64.fmod vx wx = nan.
Proof.
  rewrite is_finite_spec. unfold F64.fmod.
  destruct (Prim2SF vx) as [s|s| |s m e]; try discriminate; intros _;
    now destruct (Prim2SF wx).
Qed.






(* ================================================================= *)
(** ** Exceptions on doubles *)

Lemma f64_pos_nonzero b : (0 <? b)%float = true -> (b =? 0)%float = false.
Proof.
  rewrite FloatAxioms.ltb_spec, FloatAxioms.eqb_spec.
  replace (Prim2SF 0) with (S754_zero false) by (vm_compute; reflexivity).
  destruct (Prim2SF b) as [[]|[]| |[] m e]; cbn; congruence.
Qed.

Lemma f64_int_raises q e :
  F64.int q = F64.Raise e -> e <> F64.ZeroDivisionError.
Proof.
  unfold F64.int. destruct (Prim2SF q); intros [= <-]; discriminate.
Qed.

Lemma f64_truediv_int_raises a n e :
  (1 <= n)%Z -> F64.truediv_int a n = F64.Raise e -> e = F64.OverflowError.
Proof.
  intros Hn. unfold F64.truediv_int.
  destruct (Z.eqb_spec n 0); [lia|].
  destruct (is_infinity (F64.float_of_Z n)); [|discriminate].
  now intros [= <-].
Qed.

(** X1.  What [__init__] raises, on doubles.  It raises
    ZeroDivisionError exactly when [input_bw] compares equal to 0 (a
    negative zero included); with another [input_bw], an infinite or NaN
    [output_bw] makes [int] raise ValueError, and a quotient too large
    for a double makes it raise OverflowError, as for
    [__init__(2.0**-600, 2.0**600)].  When [__init__] returns, the three
    arguments are stored as given (negative ones included, nothing is
    validated), [sample_idx] is 0 and there is at least one copy. *)
Theorem init_exceptions ib ob sr :
  ((ib =? 0)%float = true <->
   F64.__init__ ib ob sr = F64.Raise F64.ZeroDivisionError) /\
  ((ib =? 0)%float = false -> is_finite ob = false ->
   F64.__init__ ib ob sr = F64.Raise F64.ValueError) /\
  F64.__init__ 0x1p-600 0x1p600 sr = F64.Raise F64.OverflowError /\
  (forall s, F64.__init__ ib ob sr = F64.Return s ->
     F64.input_bw s = ib /\ F64.output_bw s = ob /\ F64.samp_rate s = sr /\
     F64.sample_idx s = 0%Z /\ (1 <= F64.num_copies s)%Z).
Proof.
  split; [split|split; [|split]].
  - intros H. unfold F64.__init__, F64.floordiv. now rewrite H.
  - unfold F64.__init__, F64.floordiv.
    destruct (ib =? 0)%float; [reflexivity|]. cbn [F64.bind].
    destruct (F64.int _) as [n|e] eqn:E; cbn [F64.bind].
    + destruct (F64.truediv_int ob (Z.max 1 n)) as [sp|e] eqn:E2;
        cbn [F64.bind]; [discriminate|].
      apply f64_truediv_int_raises in E2; [|lia]. now subst e.
    + intros [= ->]. now apply f64_int_raises in E.
  - intros Hib Hob. unfold F64.__init__, F64.floordiv. rewrite Hib.
    cbn [F64.bind].
    rewrite (f64_div_mod_nan ob ib (f64_fmod_not_finite ob ib Hob)).
    vm_compute. reflexivity.
  - vm_compute. reflexivity.
  - intros s. unfold F64.__init__.
    destruct (F64.floordiv ob ib); cbn [F64.bind]; [|discriminate].
    destruct (F64.int _) as [n|]; cbn [F64.bind]; [|discriminate].
    destruct (F64.truediv_int _ _); cbn [F64.bind]; [|discriminate].
    intros [= <-]. cbn. repeat split. lia.
Qed.

(** X8.  A call of [set_input_bandwidth] that raises leaves the block
    half updated.  The exception is never a ZeroDivisionError; the
    argument was positive and is already stored as [input_bw], while
    [shift_spacing] (like [output_bw], [samp_rate] and [sample_idx]) is
    still the old one, and nothing was printed.  On the default block,
    [set_input_bandwidth(2.0**-1000)] raises OverflowError and leaves
    [input_bw = 2.0**-1000] with the 1666 copies and the spacing of the
    old plan. *)
Theorem set_input_bandwidth_interrupted self b e :
  snd (F64.set_input_bandwidth self b) = F64.Raise e ->
  e <> F64.ZeroDivisionError /\
  (0 <? b)%float = true /\
  F64.input_bw (fst (F64.set_input_bandwidth self b)) = b /\
  F64.shift_spacing (fst (F64.set_input_bandwidth self b))
  = F64.shift_spacing self /\
  F64.output_bw (fst (F64.set_input_bandwidth self b)) = F64.output_bw self /\
  F64.samp_rate (fst (F64.set_input_bandwidth self b)) = F64.samp_rate self /\
  F64.sample_idx (fst (F64.set_input_bandwidth self b)) = F64.sample_idx self /\
  F64.set_input_bandwidth F64.default_block 0x1p-1000
  = (F64.mkBWFillRepeater 0x1p-1000 20e6 1 1666
       (F64.shift_spacing F64.default_block) 0,
     F64.Raise F64.OverflowError).
Proof.
  unfold F64.set_input_bandwidth at 1 2 3 4 5 6.
  destruct (0 <? b)%float eqn:G; [|discriminate].
  destruct (F64.bind _ _) as [n|e1] eqn:E1.
  - destruct (F64.truediv_int _ _) as [sp|e2] eqn:E2; cbn [fst snd];
      [discriminate|].
    intros [= ->]. apply f64_truediv_int_raises in E2; [|cbn; lia].
    subst e. repeat split; try reflexivity. discriminate.
  - cbn [fst snd]. intros [= ->]. repeat split.
    intros ->. revert E1. unfold F64.floordiv.
    cbn [F64.set_input_bw F64.input_bw F64.output_bw].
    rewrite (f64_pos_nonzero b G). cbn [F64.bind].
    intros E1. now apply f64_int_raises in E1.
Qed.

Lemma set_input_bandwidth_interrupted_witness :
  F64.OverflowError <> F64.ZeroDivisionError /\
  (0 <? 0x1p-1000)%float = true /\
  F64.input_bw (fst (F64.set_input_bandwidth F64.default_block 0x1p-1000))
  = 0x1p-1000%float /\
  F64.shift_spacing (fst (F64.set_input_bandwidth F64.default_block 0x1p-1000))
  = F64.shift_spacing F64.default_block /\
  F64.output_bw (fst (F64.set_input_bandwidth F64.default_block 0x1p-1000))
  = F64.output_bw F64.default_block /\
  F64.samp_rate (fst (F64.set_input_bandwidth F64.default_block 0x1p-1000))
  = F64.samp_rate F64.default_block /\
  F64.sample_idx (fst (F64.set_input_bandwidth F64.default_block 0x1p-1000))
  = F64.sample_idx F64.default_block /\
  F64.set_input_bandwidth F64.default_block 0x1p-1000
  = (F64.mkBWFillRepeater 0x1p-1000 20e6 1 1666
       (F64.shift_spacing F64.default_block) 0,
     F64.Raise F64.OverflowError).
Proof.
  apply (set_input_bandwidth_interrupted F64.default_block 0x1p-1000).
  vm_compute. reflexivity.
Defined.
